(** * Deepchecks: the model error analysis check and the default suites

    A shallow embedding of
    - [deepchecks/tabular/checks/performance/model_error_analysis.py]
      (class [ModelErrorAnalysis]: constructor, [run_logic] and the condition
      added by
      [add_condition_segments_performance_relative_difference_not_greater_than]);
    - [deepchecks/tabular/suites/default_suites.py] (the deprecated suite
      constructors and the suites they forward to).

    Python numbers are modelled by exact rationals ([Q]), and the condition
    evaluator also over the binary64 floats of the interpreter
    ([float_arith]); a Python [dict] is an
    association list in insertion order; a raised exception is the [Raise]
    case of [result]. *)

From Stdlib Require Import List String Ascii Bool Arith ZArith QArith Qabs Qminmax Lia.
From Stdlib Require Import Sorting.Sorted Sorting.Permutation.
From Stdlib Require Import DecimalString Lqa.
From Stdlib Require Floats.
Import ListNotations.

Local Open Scope string_scope.
Local Open Scope list_scope.

(** ** Exceptions and the error monad *)

Inductive PyError : Type :=
| KeyError (key : string)
| ZeroDivisionError
| ValueError (msg : string)
| TypeError (msg : string)
| IndexError
| DataValidityError (msg : string).

Inductive result (A : Type) : Type :=
| Ok (a : A)
| Raise (e : PyError).

Arguments Ok {A} a.
Arguments Raise {A} e.

Definition bind {A B : Type} (m : result A) (k : A -> result B) : result B :=
  match m with
  | Ok a => k a
  | Raise e => Raise e
  end.

Notation "'do' x <- m ; k" := (bind m (fun x => k))
  (at level 10, x name, m at level 100, k at level 200).

(** ** Python dictionaries (insertion ordered) *)

Definition dict (V : Type) : Type := list (string * V).

Definition dict_keys {V} (d : dict V) : list string := map fst d.

Definition dict_items {V} (d : dict V) : list (string * V) := d.

(** [d[k]]: the value stored under [k], [KeyError] when there is none. *)
Fixpoint dict_get {V} (k : string) (d : dict V) : result V :=
  match d with
  | [] => Raise (KeyError k)
  | (k', v) :: d' => if String.eqb k k' then Ok v else dict_get k d'
  end.

(** [d[k] = v]: overwrite in place, or append a new key at the end. *)
Fixpoint dict_set {V} (k : string) (v : V) (d : dict V) : dict V :=
  match d with
  | [] => [(k, v)]
  | (k', v') :: d' =>
      if String.eqb k k' then (k', v) :: d' else (k', v') :: dict_set k v d'
  end.

(** [dict(pairs)]: insert the pairs from left to right. *)
Definition dict_of_items {V} (l : list (string * V)) : dict V :=
  fold_left (fun d kv => dict_set (fst kv) (snd kv) d) l [].

(** ** Python arithmetic on numbers *)

Definition Qltb (a b : Q) : bool := negb (Qle_bool b a).

(** [max(a, b)]: the first argument unless the second is strictly greater. *)
Definition py_max (a b : Q) : Q := if Qltb a b then b else a.

(** [n / d] raises [ZeroDivisionError] on a zero divisor. *)
Definition py_div (n d : Q) : result Q :=
  if Qeq_bool d 0 then Raise ZeroDivisionError else Ok (n / d).

(** ** [sorted(items, key=lambda item: item[1])] on string values

    Python's [sorted] is stable and compares [str] keys by code point, which
    is [String.compare] on the encoded text. *)

Fixpoint insert_by_value (x : string * string) (l : list (string * string))
  : list (string * string) :=
  match l with
  | [] => [x]
  | y :: l' =>
      if String.ltb (snd y) (snd x) then y :: insert_by_value x l'
      else x :: y :: l'
  end.

Definition sorted_by_value (l : list (string * string)) : list (string * string) :=
  fold_right insert_by_value [] l.

(** ** The value of a check result *)

(** One segment's details; the evaluator reads only ['score']. *)
Record Segment : Type := mkSegment {
  score : Q;
  size : nat;
  description : string
}.

(** [{'scorer_name': ..., 'feature_segments': {feature: {'segment1': ..., 'segment2': ...}}}] *)
Record CheckValue : Type := mkCheckValue {
  scorer_name : string;
  feature_segments : dict (dict Segment)
}.

Inductive ConditionCategory : Type := PASS | WARN | FAIL.

(** The message of a condition result.  [FoundChange name fails] stands for the
    f-string ['Found change in {name} in features above threshold: {fails}'],
    kept with its two interpolated values. *)
Inductive Details : Type :=
| NoDetails
| FoundChange (name : string) (sorted_fails : dict string).

Record ConditionResult : Type := mkConditionResult {
  category : ConditionCategory;
  details : Details
}.

(** ** The condition evaluator *)

Section Condition.

(** [deepchecks.utils.strings.format_percent] is not part of the sources read
    here; the evaluator is parameterised by it. *)
Variable format_percent : Q -> string.

Variable max_ratio_change : Q.

(** The relative gap of two scores, as the evaluator computes it, in exact
    arithmetic; [num_relative_gap] is the same expression in the arithmetic
    of the numbers at hand, floats included. *)
Definition relative_gap (s1 s2 : Q) : Q := Qabs (s1 - s2) / Qabs (py_max s1 s2).

Definition performance_diff (entry : dict Segment) : result Q :=
  do seg1 <- dict_get "segment1" entry;
  do seg2 <- dict_get "segment2" entry;
  py_div (Qabs (score seg1 - score seg2)) (Qabs (py_max (score seg1) (score seg2))).

(** The body of the [for feature in feature_res.keys()] loop. *)
Definition condition_step (feature_res : dict (dict Segment)) (feature : string)
    (fails : dict string) : result (dict string) :=
  do entry <- dict_get feature feature_res;
  if (List.length entry <? 2)%nat then Ok fails
  else
    do diff <- performance_diff entry;
    if Qltb max_ratio_change diff
    then Ok (dict_set feature (format_percent diff) fails)
    else Ok fails.

Fixpoint condition_loop (feature_res : dict (dict Segment)) (ks : list string)
    (fails : dict string) : result (dict string) :=
  match ks with
  | [] => Ok fails
  | feature :: ks' =>
      do fails' <- condition_step feature_res feature fails;
      condition_loop feature_res ks' fails'
  end.

Definition condition (value : CheckValue) : result ConditionResult :=
  let feature_res := feature_segments value in
  do fails <- condition_loop feature_res (dict_keys feature_res) [];
  match fails with
  | _ :: _ =>
      let sorted_fails := dict_of_items (sorted_by_value (dict_items fails)) in
      Ok (mkConditionResult WARN (FoundChange (scorer_name value) sorted_fails))
  | [] => Ok (mkConditionResult PASS NoDetails)
  end.

End Condition.

(** Modelled from the spec: [format_percent] (deepchecks.utils.strings) is
    missing from the sources, and its name is all the spec and the code say of
    it.  [percent_text] renders a ratio as a percentage: an optional minus
    sign, the whole part of the magnitude times one hundred in decimal, and a
    percent sign.  It is the instance used to run the evaluator on concrete
    values, and is only run on ratios whose percentage is a whole number. *)
Definition percent_text (ratio : Q) : string :=
  let p := Qabs ratio * 100 in
  let whole := Z.quot (Qnum p) (Zpos (Qden p)) in
  ((if Qltb ratio 0 then "-" else "")
    ++ NilZero.string_of_uint (N.to_uint (Z.to_N whole)) ++ "%")%string.

(** The relative gap in the words of the specification:
    |score1 - score2| / max(|score1|, |score2|). *)
Definition spec_relative_gap (s1 s2 : Q) : Q :=
  Qabs (s1 - s2) / Qmax (Qabs s1) (Qabs s2).

Definition seg (s : Q) : Segment := mkSegment s 0 "".

Definition two_segments (s1 s2 : Q) : dict Segment :=
  [("segment1", seg s1); ("segment2", seg s2)].

(** ** Python values handed to the constructor *)

#[local] Set Warnings "-register-all,-abstract-large-number".

Inductive PyVal : Type :=
| PNone
| PStr (s : string)
| PCallable (id : nat)
| PTuple (xs : list PyVal)
| PList (xs : list PyVal)
| PDict (kvs : list (PyVal * PyVal)).

(** Truth value of an object in [x if obj else y]. *)
Definition truthy (v : PyVal) : bool :=
  match v with
  | PNone => false
  | PStr s => negb (String.eqb s "")
  | PCallable _ => true
  | PTuple xs | PList xs => negb (Nat.eqb (List.length xs) 0)
  | PDict kvs => negb (Nat.eqb (List.length kvs) 0)
  end.

(** A byte that continues a character of UTF-8 encoded text. *)
Definition is_continuation (c : ascii) : bool :=
  (128 <=? nat_of_ascii c)%nat && (nat_of_ascii c <? 192)%nat.

(** The characters (code points) of a [str], whose text is kept UTF-8
    encoded: a character is a byte with the continuation bytes after it. *)
Fixpoint code_points (l : list ascii) : list string :=
  match l with
  | [] => []
  | c :: l' =>
      match code_points l' with
      | s :: rest =>
          if is_continuation (hd c l') then String c s :: rest
          else String c EmptyString :: s :: rest
      | [] => [String c EmptyString]
      end
  end.

(** The elements an object yields when iterated. *)
Definition py_iter (v : PyVal) : result (list PyVal) :=
  match v with
  | PNone | PCallable _ =>
      Raise (TypeError "cannot convert dictionary update sequence element #0 to a sequence")
  | PStr s => Ok (map PStr (code_points (list_ascii_of_string s)))
  | PTuple xs | PList xs => Ok xs
  | PDict kvs => Ok (map fst kvs)
  end.

Fixpoint hashable (v : PyVal) : bool :=
  match v with
  | PNone | PStr _ | PCallable _ => true
  | PTuple xs =>
      (fix all (l : list PyVal) : bool :=
         match l with
         | [] => true
         | x :: l' => hashable x && all l'
         end) xs
  | PList _ | PDict _ => false
  end.

(** [dict([x])]: the one element must iterate to exactly a key and a value. *)
Definition dict_of_one (x : PyVal) : result (list (PyVal * PyVal)) :=
  do kv <- py_iter x;
  match kv with
  | [k; v] => if hashable k then Ok [(k, v)] else Raise (TypeError "unhashable type")
  | _ =>
      Raise (ValueError
               ("dictionary update sequence element #0 has length "
                ++ NilZero.string_of_uint (Nat.to_uint (List.length kv))
                ++ "; 2 is required"))
  end.

(** ** [ModelErrorAnalysis]: attributes and constructor *)

Record ModelErrorAnalysis : Type := mkModelErrorAnalysis {
  max_features_to_show : nat;
  min_feature_contribution : Q;
  min_error_model_score : Q;
  min_segment_size : Q;
  user_scorer : option (list (PyVal * PyVal));
  n_samples : nat;
  n_display_samples : nat;
  random_state : Z
}.

(** [ModelErrorAnalysis.__init__]; the base class constructor only records the
    remaining keyword arguments and is left out. *)
Definition ModelErrorAnalysis_init
    (max_features_to_show : nat)
    (min_feature_contribution min_error_model_score min_segment_size : Q)
    (alternative_scorer : PyVal)
    (n_samples n_display_samples : nat) (random_state : Z)
  : result ModelErrorAnalysis :=
  do user_scorer <-
     (if truthy alternative_scorer
      then do d <- dict_of_one alternative_scorer; Ok (Some d)
      else Ok None);
  Ok (mkModelErrorAnalysis max_features_to_show min_feature_contribution
        min_error_model_score min_segment_size user_scorer
        n_samples n_display_samples random_state).

(** The defaults of the signature. *)
Definition ModelErrorAnalysis_default (alternative_scorer : PyVal) : result ModelErrorAnalysis :=
  ModelErrorAnalysis_init 3 (15 # 100) (1 # 2) (5 # 100) alternative_scorer 50000 5000 42.

(** A (name, callable) pair. *)
Definition scorer_pair (name : string) (f : nat) : PyVal := PTuple [PStr name; PCallable f].

Definition is_scorer_pair (v : PyVal) : bool :=
  match v with
  | PTuple [PStr _; PCallable _] => true
  | _ => false
  end.

(** ** Datasets, models and scorers (the [Context] of a run) *)

(** A row: its feature values and its label, [None] when the label is missing. *)
Record Row : Type := mkRow {
  values : list Q;
  label : option Q
}.

Record Dataset : Type := mkDataset {
  rows : list Row;
  label_name : option string;
  features : list string;
  cat_features : list string
}.

Inductive ModelType : Type := REGRESSION | BINARY | MULTICLASS.

Definition ModelType_eqb (a b : ModelType) : bool :=
  match a, b with
  | REGRESSION, REGRESSION | BINARY, BINARY | MULTICLASS, MULTICLASS => true
  | _, _ => false
  end.

(** The user's model: point predictions and class probabilities. *)
Record Model : Type := mkModel {
  predict : list (list Q) -> list Q;
  predict_proba : list (list Q) -> list (list Q)
}.

(** A scorer: a name and a function (model, dataset) -> float. *)
Record Scorer : Type := mkScorer {
  name : string;
  run_scorer : Model -> Dataset -> Q
}.

Record Context : Type := mkContext {
  train : Dataset;
  test : Dataset;
  model : Model;
  task_type : ModelType;
  get_single_scorer : option (list (PyVal * PyVal)) -> result Scorer
}.

Inductive DisplayItem : Type :=
| Html (text : string)
| Figure (feature : string) (points : list Row).

Record CheckResult : Type := mkCheckResult {
  value : CheckValue;
  display : option (list DisplayItem)
}.

(** The state of the process-wide random generator, which an unseeded
    third-party routine draws from. *)
Definition Entropy : Type := nat.

(** Third-party routines (pandas, scikit-learn, numpy) the check calls into.
    Each stochastic routine receives the [random_state] it was given and the
    ambient generator state. *)
Record Externals : Type := mkExternals {
  (* -log(p), after clipping *)
  neg_log : Q -> Q;
  (* DataFrame.sample(n, random_state=...) *)
  sample_rows : nat -> option Z -> Entropy -> list Row -> list Row;
  (* the error regression model, fitted on (features, scores) *)
  ErrorModel : Type;
  fit_error_model :
    list (list Q) -> list Q -> list string -> list string -> option Z -> Entropy -> ErrorModel;
  error_model_predict : ErrorModel -> list (list Q) -> list Q;
  (* r^2 of predictions against true values *)
  r2_score : list Q -> list Q -> Q;
  (* permutation importance of each feature of a fitted model *)
  feature_importance :
    ErrorModel -> list (list Q) -> list Q -> option Z -> Entropy -> list (string * Q);
  (* partition of the rows along one feature into a high and a low predicted
     error part, for a minimal fraction of rows per part *)
  split_rows :
    string -> list Q -> list Row -> Q -> option Z -> Entropy -> list Row * list Row;
  describe_segment : string -> list Row -> string
}.

(** *** Dataset operations *)

Definition has_label (ds : Dataset) : bool :=
  match label_name ds with Some _ => true | None => false end.

Definition row_has_label (r : Row) : bool :=
  match label r with Some _ => true | None => false end.

(** Modelled from the spec: [Dataset.assert_label] is not among the sources.
    Absent labels are a hard data-validity failure. *)
Definition assert_label (ds : Dataset) : result unit :=
  if has_label ds then Ok tt
  else Raise (DataValidityError "There is no label defined to use").

Definition with_rows (ds : Dataset) (rs : list Row) : Dataset :=
  mkDataset rs (label_name ds) (features ds) (cat_features ds).

(** Modelled from the spec: [Dataset.sample(n, seed, drop_na_label)] is not
    among the sources.  Rows whose label is missing are dropped first when
    [drop_na_label] is set and the dataset has a label; at most [n] of the
    remaining rows are then drawn. *)
Definition sample (ext : Externals) (n : nat) (seed : option Z) (drop_na_label : bool)
    (g : Entropy) (ds : Dataset) : Dataset :=
  let data_to_sample :=
    if drop_na_label && has_label ds then filter row_has_label (rows ds) else rows ds in
  with_rows ds (sample_rows ext (Nat.min n (List.length data_to_sample)) seed g data_to_sample).

Definition features_columns (ds : Dataset) : list (list Q) := map values (rows ds).

Fixpoint all_labels (rs : list Row) : result (list Q) :=
  match rs with
  | [] => Ok []
  | r :: rs' =>
      match label r with
      | Some y => do ys <- all_labels rs'; Ok (y :: ys)
      | None => Raise (ValueError "missing label")
      end
  end.

(** [dataset.label_col]: the label of every row.  A dataset without a label
    column has none to give, and a missing label is not a number. *)
Definition label_col (ds : Dataset) : result (list Q) :=
  if has_label ds then all_labels (rows ds)
  else Raise (TypeError "the dataset has no label column").

(** Insertion into an increasing list without repetition. *)
Fixpoint insert_class (c : Q) (l : list Q) : list Q :=
  match l with
  | [] => [c]
  | d :: l' =>
      if Qeq_bool c d then l
      else if Qltb c d then c :: l
      else d :: insert_class c l'
  end.

Definition sorted_unique (l : list Q) : list Q := fold_right insert_class [] l.

Definition present_labels (rs : list Row) : list Q :=
  flat_map (fun r => match label r with Some y => [y] | None => [] end) rs.

(** Modelled from the spec: [Dataset.classes] is not among the sources; it is
    the label space of the dataset, the distinct labels in increasing order. *)
Definition classes (ds : Dataset) : list Q := sorted_unique (present_labels (rows ds)).

(** *** [sklearn.preprocessing.LabelEncoder] *)

(** [le.fit(y)] keeps the distinct values of [y] in increasing order. *)
Definition le_fit (y : list Q) : list Q := sorted_unique y.

Fixpoint index_of (c : Q) (classes_ : list Q) : option nat :=
  match classes_ with
  | [] => None
  | d :: l => if Qeq_bool c d then Some 0%nat else option_map S (index_of c l)
  end.

(** [le.transform(y)]: the position of every label among the fitted classes;
    a label that was not seen by [fit] raises [ValueError]. *)
Fixpoint le_transform (classes_ : list Q) (y : list Q) : result (list nat) :=
  match y with
  | [] => Ok []
  | c :: y' =>
      match index_of c classes_ with
      | Some i => do idx <- le_transform classes_ y'; Ok (i :: idx)
      | None => Raise (ValueError "y contains previously unseen labels")
      end
  end.

(** *** Per-sample error metrics *)

Definition squared_error (y p : Q) : Q := (y - p) * (y - p).

(** Modelled from the spec: [per_sample_mse] (deepchecks.utils.single_sample_metrics)
    is not among the sources; it is the squared error of every sample.  Arrays
    of different lengths cannot be subtracted. *)
Fixpoint per_sample_mse (y_true y_pred : list Q) : result (list Q) :=
  match y_true, y_pred with
  | [], [] => Ok []
  | y :: ys, p :: ps => do rest <- per_sample_mse ys ps; Ok (squared_error y p :: rest)
  | _, _ => Raise (ValueError "operands could not be broadcast together")
  end.

(** Modelled from the spec: [per_sample_cross_entropy] is not among the
    sources; it is the cross-entropy between the true class and the predicted
    class-probability vector of every sample, that is minus the logarithm of
    the probability given to the true class. *)
Fixpoint per_sample_cross_entropy (ext : Externals) (y_true : list nat)
    (y_pred : list (list Q)) : result (list Q) :=
  match y_true, y_pred with
  | [], [] => Ok []
  | k :: ks, probs :: rest =>
      match nth_error probs k with
      | Some p => do tl <- per_sample_cross_entropy ext ks rest; Ok (neg_log ext p :: tl)
      | None => Raise IndexError
      end
  | _, _ => Raise IndexError
  end.

(** The [scoring_func] closure [run_logic] creates: [train_dataset] is the
    sampled train dataset the label encoder is fitted on. *)
Definition scoring_func (ext : Externals) (task_type : ModelType) (model : Model)
    (train_dataset : Dataset) (dataset : Dataset) : result (list Q) :=
  if ModelType_eqb task_type REGRESSION then
    do y <- label_col dataset;
    per_sample_mse y (predict model (features_columns dataset))
  else
    let le := le_fit (classes train_dataset) in
    do y <- label_col dataset;
    do encoded_label <- le_transform le y;
    per_sample_cross_entropy ext encoded_label (predict_proba model (features_columns dataset)).

(** *** The error-contribution model *)

(** Modelled from the spec: [model_error_contribution]
    (deepchecks.utils.performance.error_model) is not among the sources.  A
    regression model is fitted on the train split to predict the error score;
    its fit quality is evaluated on the held-out split; below the threshold
    the importances are empty and the computation does not fail.  The result
    is the importances and the predicted error of the held-out rows. *)
Definition model_error_contribution (ext : Externals)
    (train_x : list (list Q)) (train_scores : list Q)
    (test_x : list (list Q)) (test_scores : list Q)
    (numeric_features categorical_features : list string)
    (min_error_model_score : Q) (seed : option Z) (g : Entropy)
  : list (string * Q) * list Q :=
  let error_model :=
    fit_error_model ext train_x train_scores numeric_features categorical_features seed g in
  let error_model_predicted := error_model_predict ext error_model test_x in
  let error_model_score := r2_score ext test_scores error_model_predicted in
  if Qltb error_model_score min_error_model_score
  then ([], error_model_predicted)
  else (feature_importance ext error_model test_x test_scores seed g, error_model_predicted).

(** *** Segments and display *)

Fixpoint insert_by_importance (x : string * Q) (l : list (string * Q)) : list (string * Q) :=
  match l with
  | [] => [x]
  | y :: l' =>
      if Qltb (snd x) (snd y) then y :: insert_by_importance x l' else x :: l
  end.

(** Descending by importance, first come first among equals. *)
Definition rank_descending (l : list (string * Q)) : list (string * Q) :=
  fold_right insert_by_importance [] l.

Definition select_features (error_fi : list (string * Q))
    (max_features_to_show : nat) (min_feature_contribution : Q) : list string :=
  map fst
    (firstn max_features_to_show
       (filter (fun fi => Qltb min_feature_contribution (snd fi)) (rank_descending error_fi))).

Definition segment_details (ext : Externals) (model : Model) (scorer : Scorer)
    (dataset : Dataset) (feature : string) (part : list Row) : Segment :=
  mkSegment (run_scorer scorer model (with_rows dataset part))
            (List.length part)
            (describe_segment ext feature part).

(** The entry of one selected feature: the high and the low predicted-error
    segment, or one segment when fewer than two could be told apart. *)
Definition feature_entry (ext : Externals) (error_model_predicted : list Q)
    (dataset : Dataset) (model : Model) (scorer : Scorer)
    (min_segment_size : Q) (seed : option Z) (g : Entropy) (feature : string)
  : dict Segment :=
  let (high, low) :=
    split_rows ext feature error_model_predicted (rows dataset) min_segment_size seed g in
  match high, low with
  | _ :: _, _ :: _ =>
      [("segment1", segment_details ext model scorer dataset feature high);
       ("segment2", segment_details ext model scorer dataset feature low)]
  | _, _ => [("segment1", segment_details ext model scorer dataset feature (rows dataset))]
  end.

(** Modelled from the spec: [error_model_display]
    (deepchecks.utils.performance.error_model) is not among the sources.  Up
    to [max_features_to_show] features whose contribution exceeds
    [min_feature_contribution] are selected, ranked descending by importance;
    each contributes its segments to the value mapping and one figure,
    sub-sampled to [n_display_samples] rows, to the display.  The rule that
    splits the rows of a feature is left to the partitioning routine. *)
Definition error_model_display (ext : Externals)
    (error_fi : list (string * Q)) (error_model_predicted : list Q)
    (dataset : Dataset) (model : Model) (scorer : Scorer)
    (max_features_to_show : nat) (min_feature_contribution : Q)
    (n_display_samples : nat) (min_segment_size : Q) (seed : option Z) (g : Entropy)
  : list DisplayItem * CheckValue :=
  let selected := select_features error_fi max_features_to_show min_feature_contribution in
  let n_samples_display := Nat.min n_display_samples (List.length (rows dataset)) in
  let display :=
    map (fun feature =>
           Figure feature (sample_rows ext n_samples_display seed g (rows dataset)))
        selected in
  let segments :=
    fold_left
      (fun d feature =>
         dict_set feature
           (feature_entry ext error_model_predicted dataset model scorer
              min_segment_size seed g feature) d)
      selected [] in
  (display, mkCheckValue (name scorer) segments).

(** *** [ModelErrorAnalysis.run_logic] *)

Definition headnote : string :=
  "<span>
            The following graphs show the distribution of error for top features that are most useful for distinguishing
            high error samples from low error samples.
        </span>".

Definition numeric_features_of (ds : Dataset) : list string :=
  filter (fun f => negb (existsb (String.eqb f) (cat_features ds))) (features ds).

Definition run_logic (ext : Externals) (self : ModelErrorAnalysis) (context : Context)
    (g : Entropy) : result CheckResult :=
  let train_dataset := train context in
  let test_dataset := test context in
  do _ <- assert_label train_dataset;
  let task_type := task_type context in
  let model := model context in
  do scorer <- get_single_scorer context (user_scorer self);
  let seed := Some (random_state self) in
  let train_dataset := sample ext (n_samples self) seed true g train_dataset in
  let test_dataset := sample ext (n_samples self) seed true g test_dataset in
  let scoring := scoring_func ext task_type model train_dataset in
  do train_scores <- scoring train_dataset;
  do test_scores <- scoring test_dataset;
  let cat_features := cat_features train_dataset in
  let numeric_features := numeric_features_of train_dataset in
  let (error_fi, error_model_predicted) :=
    model_error_contribution ext
      (features_columns train_dataset) train_scores
      (features_columns test_dataset) test_scores
      numeric_features cat_features
      (min_error_model_score self) seed g in
  let (display, value) :=
    error_model_display ext error_fi error_model_predicted test_dataset model scorer
      (max_features_to_show self) (min_feature_contribution self)
      (n_display_samples self) (min_segment_size self) seed g in
  let display :=
    match display with
    | _ :: _ => Some (Html headnote :: display)
    | [] => None
    end in
  Ok (mkCheckResult value display).

(** ** The default suites *)

Inductive Warning : Type :=
| DeprecationWarning (msg : string)
| OtherWarning (msg : string).

(** A computation that may emit warnings and then returns or raises. *)
Definition Eff (A : Type) : Type := (list Warning * result A)%type.

Definition eff_ret {A} (a : A) : Eff A := ([], Ok a).

Definition eff_bind {A B} (m : Eff A) (k : A -> Eff B) : Eff B :=
  match m with
  | (ws, Ok a) => let (ws', r) := k a in (ws ++ ws', r)
  | (ws, Raise e) => (ws, Raise e)
  end.

(** [warnings.warn(msg, category)] *)
Definition warn (w : Warning) : Eff unit := ([w], Ok tt).

Section Suites.

(** The check classes of [deepchecks.tabular.checks] are not part of the
    sources read here: a check is built from its class name and the keyword
    arguments, and a default condition is added by the name of its method. *)
Variable Kwargs : Type.
Variable Check : Type.
Variable construct : string -> Kwargs -> Eff Check.
Variable add_condition : string -> Check -> Eff Check.

Record Suite : Type := mkSuite {
  suite_name : string;
  checks : list Check
}.

(** The expression [Cls(kwargs).m1().m2()], conditions added in order. *)
Definition configured (cls : string) (methods : list string) (kwargs : Kwargs) : Eff Check :=
  fold_left (fun c m => eff_bind c (add_condition m)) methods (construct cls kwargs).

(** The arguments of a call, evaluated from left to right. *)
Fixpoint eval_args (args : list (Eff Check)) : Eff (list Check) :=
  match args with
  | [] => eff_ret []
  | a :: args' =>
      eff_bind a (fun c => eff_bind (eval_args args') (fun cs => eff_ret (c :: cs)))
  end.

Definition data_integrity (kwargs : Kwargs) : Eff Suite :=
  eff_bind
    (eval_args
       [configured "IsSingleValue" ["add_condition_not_single_value"] kwargs;
        configured "SpecialCharacters"
          ["add_condition_ratio_of_special_characters_less_or_equal"] kwargs;
        configured "MixedNulls" ["add_condition_different_nulls_less_equal_to"] kwargs;
        configured "MixedDataTypes" ["add_condition_rare_type_ratio_not_in_range"] kwargs;
        configured "StringMismatch" ["add_condition_no_variants"] kwargs;
        configured "DataDuplicates" ["add_condition_ratio_less_or_equal"] kwargs;
        configured "StringLengthOutOfBounds"
          ["add_condition_ratio_of_outliers_less_or_equal"] kwargs;
        configured "ConflictingLabels"
          ["add_condition_ratio_of_conflicting_labels_less_or_equal"] kwargs;
        configured "OutlierSampleDetection" [] kwargs;
        configured "FeatureLabelCorrelation" ["add_condition_feature_pps_less_than"] kwargs;
        configured "IdentifierLabelCorrelation" ["add_condition_pps_less_or_equal"] kwargs])
    (fun cs => eff_ret (mkSuite "Data Integrity Suite" cs)).

Definition single_dataset_integrity (kwargs : Kwargs) : Eff Suite :=
  eff_bind
    (warn (DeprecationWarning
       "the single_dataset_integrity suite is deprecated, use the data_integrity suite instead"))
    (fun _ => data_integrity kwargs).

Definition train_test_validation (kwargs : Kwargs) : Eff Suite :=
  eff_bind
    (eval_args
       [configured "DatasetsSizeComparison"
          ["add_condition_test_train_size_ratio_greater_than"] kwargs;
        configured "NewLabelTrainTest"
          ["add_condition_new_labels_number_less_or_equal"] kwargs;
        configured "CategoryMismatchTrainTest"
          ["add_condition_new_category_ratio_less_or_equal"] kwargs;
        configured "StringMismatchComparison" ["add_condition_no_new_variants"] kwargs;
        configured "DateTrainTestLeakageDuplicates"
          ["add_condition_leakage_ratio_less_or_equal"] kwargs;
        configured "DateTrainTestLeakageOverlap"
          ["add_condition_leakage_ratio_less_or_equal"] kwargs;
        configured "IndexTrainTestLeakage" ["add_condition_ratio_less_or_equal"] kwargs;
        configured "TrainTestSamplesMix"
          ["add_condition_duplicates_ratio_less_or_equal"] kwargs;
        configured "FeatureLabelCorrelationChange"
          ["add_condition_feature_pps_difference_less_than";
           "add_condition_feature_pps_in_train_less_than"] kwargs;
        configured "TrainTestFeatureDrift" ["add_condition_drift_score_less_than"] kwargs;
        configured "TrainTestLabelDrift" ["add_condition_drift_score_less_than"] kwargs;
        configured "WholeDatasetDrift"
          ["add_condition_overall_drift_value_less_than"] kwargs])
    (fun cs => eff_ret (mkSuite "Train Test Validation Suite" cs)).

Definition train_test_leakage (kwargs : Kwargs) : Eff Suite :=
  eff_bind
    (warn (DeprecationWarning
       "the train_test_leakage suite is deprecated, use the train_test_validation suite instead"))
    (fun _ => train_test_validation kwargs).

End Suites.

Arguments mkSuite {Check} suite_name checks.
Arguments suite_name {Check} s.
Arguments checks {Check} s.

(** ** Auxiliary notions used in the statements *)

(** An entry the evaluator can process: a single segment, or two segments
    whose greater score is not zero. *)
Definition well_segmented (entry : dict Segment) : Prop :=
  (List.length entry < 2)%nat \/
  exists s1 s2,
    dict_get "segment1" entry = Ok s1 /\ dict_get "segment2" entry = Ok s2 /\
    ~ py_max (score s1) (score s2) == 0.

(** An entry with two segments whose relative gap exceeds the threshold. *)
Definition exceeds (max_ratio_change : Q) (entry : dict Segment) : Prop :=
  (2 <= List.length entry)%nat /\
  exists s1 s2,
    dict_get "segment1" entry = Ok s1 /\ dict_get "segment2" entry = Ok s2 /\
    max_ratio_change < relative_gap (score s1) (score s2).

(** What one entry adds to the failure report. *)
Definition flagged (format_percent : Q -> string) (max_ratio_change : Q)
    (entry : dict Segment) : option string :=
  if (List.length entry <? 2)%nat then None
  else
    match dict_get "segment1" entry, dict_get "segment2" entry with
    | Ok s1, Ok s2 =>
        let diff := relative_gap (score s1) (score s2) in
        if Qltb max_ratio_change diff then Some (format_percent diff) else None
    | _, _ => None
    end.

Definition failing_features (format_percent : Q -> string) (max_ratio_change : Q)
    (feature_res : dict (dict Segment)) : dict string :=
  flat_map (fun kv => match flagged format_percent max_ratio_change (snd kv) with
                      | Some t => [(fst kv, t)]
                      | None => []
                      end) feature_res.

(** Ascending order of the formatted values, as [str] compares them. *)
Definition text_le (a b : string * string) : Prop := String.leb (snd a) (snd b) = true.

(** The error score of one sample in a regression task. *)
Definition reg_score (r : Row) (prediction : Q) (e : Q) : Prop :=
  exists y, label r = Some y /\ e = squared_error y prediction.

(** The error score of one sample in a classification task, the label being
    encoded against the fitted [classes_]. *)
Definition clf_score (ext : Externals) (classes_ : list Q) (r : Row) (probs : list Q)
    (e : Q) : Prop :=
  exists y k p,
    label r = Some y /\ index_of y classes_ = Some k /\ nth_error probs k = Some p /\
    e = neg_log ext p.

(** What [scoring_func] needs in order to return: a label on every row and
    predictions of the right shape. *)
Definition scorable (task : ModelType) (model : Model) (train_dataset dataset : Dataset)
  : Prop :=
  has_label dataset = true /\
  match task with
  | REGRESSION =>
      Forall (fun r => row_has_label r = true) (rows dataset) /\
      List.length (predict model (features_columns dataset)) = List.length (rows dataset)
  | _ =>
      Forall2 (fun r probs =>
                 exists y k, label r = Some y /\
                             index_of y (le_fit (classes train_dataset)) = Some k /\
                             (k < List.length probs)%nat)
              (rows dataset) (predict_proba model (features_columns dataset))
  end.

(** A dataset, and a context, without the rows whose label is missing. *)
Definition labelled_rows (ds : Dataset) : Dataset :=
  with_rows ds (filter row_has_label (rows ds)).

Definition without_missing_labels (context : Context) : Context :=
  mkContext (labelled_rows (train context)) (labelled_rows (test context))
            (model context) (task_type context) (get_single_scorer context).


(** Given a seed, the stochastic routines do not read the ambient generator. *)
Definition seeded (ext : Externals) : Prop :=
  (forall n s g1 g2 l, sample_rows ext n (Some s) g1 l = sample_rows ext n (Some s) g2 l) /\
  (forall x y nf cf s g1 g2,
      fit_error_model ext x y nf cf (Some s) g1 = fit_error_model ext x y nf cf (Some s) g2) /\
  (forall em x y s g1 g2,
      feature_importance ext em x y (Some s) g1 = feature_importance ext em x y (Some s) g2) /\
  (forall f p l q s g1 g2,
      split_rows ext f p l q (Some s) g1 = split_rows ext f p l q (Some s) g2).

(** The run up to the per-sample error scores: the scorer, the sampled
    datasets and their scores. *)
Record Scored : Type := mkScored {
  scored_scorer : Scorer;
  scored_train : Dataset;
  scored_test : Dataset;
  train_scores : list Q;
  test_scores : list Q
}.

Definition score_datasets (ext : Externals) (self : ModelErrorAnalysis) (context : Context)
    (g : Entropy) : result Scored :=
  do _ <- assert_label (train context);
  do scorer <- get_single_scorer context (user_scorer self);
  let seed := Some (random_state self) in
  let train_dataset := sample ext (n_samples self) seed true g (train context) in
  let test_dataset := sample ext (n_samples self) seed true g (test context) in
  let scoring := scoring_func ext (task_type context) (model context) train_dataset in
  do train_scores <- scoring train_dataset;
  do test_scores <- scoring test_dataset;
  Ok (mkScored scorer train_dataset test_dataset train_scores test_scores).

(** The held-out fit quality of the error-contribution model of a run. *)
Definition error_model_fit_quality (ext : Externals) (self : ModelErrorAnalysis)
    (sc : Scored) (g : Entropy) : Q :=
  let error_model :=
    fit_error_model ext (features_columns (scored_train sc)) (train_scores sc)
      (numeric_features_of (scored_train sc)) (cat_features (scored_train sc))
      (Some (random_state self)) g in
  r2_score ext (test_scores sc)
    (error_model_predict ext error_model (features_columns (scored_test sc))).

(** ** Concrete inputs *)

(** Two features over a threshold of 5%: gaps of 100% and of 50%. *)
Definition value_order : CheckValue :=
  mkCheckValue "accuracy"
    [("a", two_segments 1 0); ("b", two_segments 1 (1 # 2))].

(** One feature with two negative scores. *)
Definition value_negative : CheckValue :=
  mkCheckValue "neg_mse" [("x", two_segments (-1 # 1) (-3 # 1))].

(** A feature over the threshold, one under it and one with a single segment. *)
Definition value_mixed : CheckValue :=
  mkCheckValue "accuracy"
    [("a", two_segments 1 (1 # 2)); ("b", two_segments 1 1); ("c", [("segment1", seg 1)])].

(** A feature whose greater score is zero. *)
Definition value_zero : CheckValue :=
  mkCheckValue "neg_mse" [("f", two_segments 0 (-1 # 1))].

(** *** A small instance of the third-party routines

    Small stand-ins on which the check can be run: sampling keeps the first
    rows, the error model predicts the first training score everywhere, its
    fit is perfect or null, and a feature is split in the middle.  Without a
    seed the routines depend on the ambient generator state. *)

Definition toy_sample_rows (n : nat) (seed : option Z) (g : Entropy) (l : list Row)
  : list Row :=
  match seed with
  | Some _ => firstn n l
  | None => firstn n (skipn (g mod 2) l)
  end.

Definition unseeded_shift (seed : option Z) (g : Entropy) : Q :=
  match seed with
  | Some _ => 0
  | None => inject_Z (Z.of_nat g)
  end.

Fixpoint same_values (a b : list Q) : bool :=
  match a, b with
  | [], [] => true
  | x :: a', y :: b' => Qeq_bool x y && same_values a' b'
  | _, _ => false
  end.

Definition toy_ext : Externals :=
  mkExternals
    (fun p => 1 - p)
    toy_sample_rows
    Q
    (fun _ y _ _ seed g => hd 0 y + unseeded_shift seed g)
    (fun em xs => map (fun _ => em) xs)
    (fun y p => if same_values y p then 1 else 0)
    (fun _ _ _ seed g =>
       [("age", (6 # 10) + unseeded_shift seed g); ("bmi", 3 # 10); ("sex", 1 # 10)])
    (fun _ _ l _ seed g =>
       let k := (List.length l / 2 + match seed with Some _ => 0 | None => g end)%nat in
       (firstn k l, skipn k l))
    (fun f _ => f).

Definition toy_model : Model :=
  mkModel (fun xs => map (fun _ => 0) xs) (fun xs => map (fun _ => [1 # 2; 1 # 2]) xs).

Definition toy_scorer : Scorer :=
  mkScorer "Neg RMSE" (fun m ds => - inject_Z (Z.of_nat (List.length (rows ds)))).

Definition toy_dataset (rs : list Row) : Dataset :=
  mkDataset rs (Some "target") ["age"; "bmi"; "sex"] ["sex"].

Definition toy_train : Dataset :=
  toy_dataset [mkRow [30; 21; 0] (Some 1); mkRow [41; 25; 1] None;
               mkRow [52; 30; 1] (Some 1); mkRow [63; 28; 0] (Some 1)].

(** Held-out rows on which the toy error model fits perfectly. *)
Definition toy_test_fit : Dataset :=
  toy_dataset [mkRow [35; 22; 0] (Some 1); mkRow [44; 27; 1] (Some 1);
               mkRow [58; 31; 0] None; mkRow [61; 24; 1] (Some 1);
               mkRow [70; 26; 1] (Some 1)].

(** Held-out rows on which it does not fit. *)
Definition toy_test_unfit : Dataset :=
  toy_dataset [mkRow [35; 22; 0] (Some 2); mkRow [44; 27; 1] (Some 3)].

Definition toy_context (test_dataset : Dataset) : Context :=
  mkContext toy_train test_dataset toy_model REGRESSION (fun _ => Ok toy_scorer).


(** A classification context: the classes of the train dataset are 3 and 7. *)
Definition toy_classification : Context :=
  mkContext (toy_dataset [mkRow [30; 21; 0] (Some 7); mkRow [41; 25; 1] (Some 3)])
            (toy_dataset [mkRow [35; 22; 0] (Some 3); mkRow [44; 27; 1] (Some 7)])
            toy_model BINARY (fun _ => Ok toy_scorer).

(** Held-out rows of the classification context with a class, 5, that the
    train dataset does not have. *)
Definition unseen_class_test : Dataset :=
  toy_dataset [mkRow [35; 22; 0] (Some 3); mkRow [44; 27; 1] (Some 5)].

Definition default_check : ModelErrorAnalysis :=
  mkModelErrorAnalysis 3 (15 # 100) (1 # 2) (5 # 100) None 50000 5000 42.



(** The result of the run on the held-out rows the toy error model fits. *)
Definition toy_fit_result : CheckResult :=
  Eval vm_compute in
    match run_logic toy_ext default_check (toy_context toy_test_fit) 0%nat with
    | Ok res => res
    | Raise _ => mkCheckResult (mkCheckValue "" []) None
    end.

(** ** Further definitions

    The loop of the evaluator over the items of the mapping, the two
    remaining suites of [default_suites.py], and the notions the further
    properties are stated with. *)

(** The body of the loop once [feature_res[feature]] has been read. *)
Definition entry_step (format_percent : Q -> string) (max_ratio_change : Q)
    (feature : string) (entry : dict Segment) (fails : dict string)
  : result (dict string) :=
  if (List.length entry <? 2)%nat then Ok fails
  else
    do diff <- performance_diff entry;
    if Qltb max_ratio_change diff
    then Ok (dict_set feature (format_percent diff) fails)
    else Ok fails.

Fixpoint items_loop (format_percent : Q -> string) (max_ratio_change : Q)
    (entries : dict (dict Segment)) (fails : dict string) : result (dict string) :=
  match entries with
  | [] => Ok fails
  | (feature, entry) :: rest =>
      do fails' <- entry_step format_percent max_ratio_change feature entry fails;
      items_loop format_percent max_ratio_change rest fails'
  end.

(** The last step of the evaluator, from the collected failures. *)
Definition condition_result (shown : string) (fails : dict string) : ConditionResult :=
  match fails with
  | _ :: _ =>
      mkConditionResult WARN
        (FoundChange shown (dict_of_items (sorted_by_value (dict_items fails))))
  | [] => mkConditionResult PASS NoDetails
  end.

(** The value mapping without the features that have fewer than two segments. *)
Definition drop_single_segments (v : CheckValue) : CheckValue :=
  mkCheckValue (scorer_name v)
    (filter (fun kv => negb (List.length (snd kv) <? 2)%nat) (feature_segments v)).

Definition map_values {V W} (f : V -> W) (d : dict V) : dict W :=
  map (fun kv => (fst kv, f (snd kv))) d.

(** The value mapping with every segment's details rewritten by [f]. *)
Definition map_segments (f : Segment -> Segment) (v : CheckValue) : CheckValue :=
  mkCheckValue (scorer_name v) (map_values (map_values f) (feature_segments v)).

(** Every score read from the mapping is non-negative. *)
Definition nonnegative_scores (v : CheckValue) : Prop :=
  Forall (fun kv => Forall (fun ks => 0 <= score (snd ks)) (snd kv)) (feature_segments v).

Section MoreSuites.

Variable Kwargs : Type.
Variable Check : Type.
Variable construct : string -> Kwargs -> Eff Check.
Variable add_condition : string -> Check -> Eff Check.

Definition model_evaluation (kwargs : Kwargs) : Eff (Suite Check) :=
  eff_bind
    (eval_args Check
       [configured Kwargs Check construct add_condition "PerformanceReport"
          ["add_condition_train_test_relative_degradation_not_greater_than"] kwargs;
        configured Kwargs Check construct add_condition "RocReport"
          ["add_condition_auc_greater_than"] kwargs;
        configured Kwargs Check construct add_condition "ConfusionMatrixReport" [] kwargs;
        configured Kwargs Check construct add_condition "TrainTestPredictionDrift"
          ["add_condition_drift_score_less_than"] kwargs;
        configured Kwargs Check construct add_condition "SimpleModelComparison"
          ["add_condition_gain_greater_than"] kwargs;
        configured Kwargs Check construct add_condition "WeakSegmentsPerformance"
          ["add_condition_segments_relative_performance_greater_than"] kwargs;
        configured Kwargs Check construct add_condition "CalibrationScore" [] kwargs;
        configured Kwargs Check construct add_condition "RegressionSystematicError"
          ["add_condition_systematic_error_ratio_to_rmse_less_than"] kwargs;
        configured Kwargs Check construct add_condition "RegressionErrorDistribution"
          ["add_condition_kurtosis_greater_than"] kwargs;
        configured Kwargs Check construct add_condition "UnusedFeatures"
          ["add_condition_number_of_high_variance_unused_features_less_or_equal"] kwargs;
        configured Kwargs Check construct add_condition "BoostingOverfit"
          ["add_condition_test_score_percent_decline_less_than"] kwargs;
        configured Kwargs Check construct add_condition "ModelInferenceTime"
          ["add_condition_inference_time_less_than"] kwargs])
    (fun cs => eff_ret (mkSuite "Model Evaluation Suite" cs)).

(** A suite whose arguments are suites; how [Suite] merges them is not part of
    the sources read here, so the members are kept as they were passed. *)
Record SuiteOfSuites : Type := mkSuiteOfSuites {
  outer_name : string;
  members : list (Suite Check)
}.

Definition full_suite (kwargs : Kwargs) : Eff SuiteOfSuites :=
  eff_bind (model_evaluation kwargs) (fun evaluation =>
  eff_bind (train_test_validation Kwargs Check construct add_condition kwargs) (fun validation =>
  eff_bind (data_integrity Kwargs Check construct add_condition kwargs) (fun integrity =>
  eff_ret (mkSuiteOfSuites "Full Suite" [evaluation; validation; integrity])))).

(** A warning that a check constructor or a condition method emitted. *)
Definition from_checks (w : Warning) : Prop :=
  (exists cls kwargs, In w (fst (construct cls kwargs))) \/
  (exists method c, In w (fst (add_condition method c))).

End MoreSuites.

Arguments mkSuiteOfSuites {Check} outer_name members.
Arguments outer_name {Check} s.
Arguments members {Check} s.

(** The check classes each suite constructs, in the order of the source. *)
Definition data_integrity_classes : list string :=
  ["IsSingleValue"; "SpecialCharacters"; "MixedNulls"; "MixedDataTypes"; "StringMismatch";
   "DataDuplicates"; "StringLengthOutOfBounds"; "ConflictingLabels";
   "OutlierSampleDetection"; "FeatureLabelCorrelation"; "IdentifierLabelCorrelation"].

Definition train_test_validation_classes : list string :=
  ["DatasetsSizeComparison"; "NewLabelTrainTest"; "CategoryMismatchTrainTest";
   "StringMismatchComparison"; "DateTrainTestLeakageDuplicates";
   "DateTrainTestLeakageOverlap"; "IndexTrainTestLeakage"; "TrainTestSamplesMix";
   "FeatureLabelCorrelationChange"; "TrainTestFeatureDrift"; "TrainTestLabelDrift";
   "WholeDatasetDrift"].

Definition model_evaluation_classes : list string :=
  ["PerformanceReport"; "RocReport"; "ConfusionMatrixReport"; "TrainTestPredictionDrift";
   "SimpleModelComparison"; "WeakSegmentsPerformance"; "CalibrationScore";
   "RegressionSystematicError"; "RegressionErrorDistribution"; "UnusedFeatures";
   "BoostingOverfit"; "ModelInferenceTime"].

(** *** A recording instance of the check classes

    A check is the name of its class with the conditions added so far; a class
    of a given name may reject the keyword arguments. *)

Definition TraceCheck : Type := (string * list string)%type.

Definition trace_construct (rejecting : list string) (cls : string) (kwargs : list string)
  : Eff TraceCheck :=
  if existsb (String.eqb cls) rejecting
  then ([], Raise (TypeError "__init__() got an unexpected keyword argument"))
  else ([], Ok (cls, [])).

Definition trace_add_condition (method : string) (c : TraceCheck) : Eff TraceCheck :=
  ([], Ok (fst c, snd c ++ [method])).

(** Proves [NoDup] of a list of distinct string literals. *)
Ltac distinct_keys :=
  repeat (constructor; [simpl; intuition discriminate|]); constructor.

(** ** The condition evaluator on the numbers of the running program

    The scores and the threshold are Python numbers, in a run of the check
    binary64 floats.  The evaluator is written once more over the arithmetic
    it uses (subtraction, [abs], [>], the zero test of [/] and the quotient)
    so that it can be run on the floats of the interpreter as well as on
    exact rationals. *)

Record Arith : Type := mkArith {
  num : Type;
  num_sub : num -> num -> num;
  num_abs : num -> num;
  num_div : num -> num -> num;
  num_gt : num -> num -> bool;
  num_is_zero : num -> bool
}.

(** Exact rationals. *)
Definition exact_arith : Arith :=
  mkArith Q Qminus Qabs Qdiv (fun a b => Qltb b a) (fun d => Qeq_bool d 0).

(** Python [float]: IEEE 754 binary64, round to nearest even; [a / b] raises
    on [b == 0] and returns the rounded quotient otherwise; a comparison with
    nan is false. *)
Definition float_arith : Arith :=
  mkArith PrimFloat.float PrimFloat.sub PrimFloat.abs PrimFloat.div
          (fun a b => PrimFloat.ltb b a)
          (fun d => PrimFloat.eqb d PrimFloat.zero).

Record NumSegment (A : Arith) : Type := mkNumSegment {
  num_score : num A;
  num_size : nat;
  num_description : string
}.
Arguments mkNumSegment {A} _ _ _.
Arguments num_score {A} _.
Arguments num_size {A} _.
Arguments num_description {A} _.

Record NumCheckValue (A : Arith) : Type := mkNumCheckValue {
  num_scorer_name : string;
  num_feature_segments : dict (dict (NumSegment A))
}.
Arguments mkNumCheckValue {A} _ _.
Arguments num_scorer_name {A} _.
Arguments num_feature_segments {A} _.

Section NumCondition.

Variable A : Arith.
Variable format_percent : num A -> string.
Variable max_ratio_change : num A.

(** [max(a, b)]: the first argument unless the second is greater. *)
Definition num_max (a b : num A) : num A := if num_gt A b a then b else a.

(** [abs(s1 - s2) / abs(max(s1, s2))] as the machine computes it. *)
Definition num_relative_gap (s1 s2 : num A) : num A :=
  num_div A (num_abs A (num_sub A s1 s2)) (num_abs A (num_max s1 s2)).

Definition num_performance_diff (entry : dict (NumSegment A)) : result (num A) :=
  do seg1 <- dict_get "segment1" entry;
  do seg2 <- dict_get "segment2" entry;
  if num_is_zero A (num_abs A (num_max (num_score seg1) (num_score seg2)))
  then Raise ZeroDivisionError
  else Ok (num_relative_gap (num_score seg1) (num_score seg2)).

Definition num_condition_step (feature_res : dict (dict (NumSegment A))) (feature : string)
    (fails : dict string) : result (dict string) :=
  do entry <- dict_get feature feature_res;
  if (List.length entry <? 2)%nat then Ok fails
  else
    do diff <- num_performance_diff entry;
    if num_gt A diff max_ratio_change
    then Ok (dict_set feature (format_percent diff) fails)
    else Ok fails.

Fixpoint num_condition_loop (feature_res : dict (dict (NumSegment A))) (ks : list string)
    (fails : dict string) : result (dict string) :=
  match ks with
  | [] => Ok fails
  | feature :: ks' =>
      do fails' <- num_condition_step feature_res feature fails;
      num_condition_loop feature_res ks' fails'
  end.

Definition num_condition (value : NumCheckValue A) : result ConditionResult :=
  let feature_res := num_feature_segments value in
  do fails <- num_condition_loop feature_res (dict_keys feature_res) [];
  match fails with
  | _ :: _ =>
      let sorted_fails := dict_of_items (sorted_by_value (dict_items fails)) in
      Ok (mkConditionResult WARN (FoundChange (num_scorer_name value) sorted_fails))
  | [] => Ok (mkConditionResult PASS NoDetails)
  end.

(** An entry the evaluator can process: a single segment, or two segments
    whose divisor is not zero. *)
Definition num_well_segmented (entry : dict (NumSegment A)) : Prop :=
  (List.length entry < 2)%nat \/
  exists s1 s2,
    dict_get "segment1" entry = Ok s1 /\ dict_get "segment2" entry = Ok s2 /\
    num_is_zero A (num_abs A (num_max (num_score s1) (num_score s2))) = false.

(** An entry with two segments whose computed gap is greater than the
    threshold, by the comparison of the numbers themselves. *)
Definition num_exceeds (entry : dict (NumSegment A)) : Prop :=
  (2 <= List.length entry)%nat /\
  exists s1 s2,
    dict_get "segment1" entry = Ok s1 /\ dict_get "segment2" entry = Ok s2 /\
    num_gt A (num_relative_gap (num_score s1) (num_score s2)) max_ratio_change = true.

Definition num_flagged (entry : dict (NumSegment A)) : option string :=
  if (List.length entry <? 2)%nat then None
  else
    match dict_get "segment1" entry, dict_get "segment2" entry with
    | Ok s1, Ok s2 =>
        let diff := num_relative_gap (num_score s1) (num_score s2) in
        if num_gt A diff max_ratio_change then Some (format_percent diff) else None
    | _, _ => None
    end.

Definition num_failing_features (feature_res : dict (dict (NumSegment A))) : dict string :=
  flat_map (fun kv => match num_flagged (snd kv) with
                      | Some t => [(fst kv, t)]
                      | None => []
                      end) feature_res.

End NumCondition.

(** A value of rationals read as a value of the exact arithmetic. *)
Definition exact_segment (s : Segment) : NumSegment exact_arith :=
  mkNumSegment (A := exact_arith) (score s) (size s) (description s).

Definition exact_value (v : CheckValue) : NumCheckValue exact_arith :=
  mkNumCheckValue (scorer_name v) (map_values (map_values exact_segment) (feature_segments v)).

Definition float_seg (s : PrimFloat.float) : NumSegment float_arith :=
  mkNumSegment (A := float_arith) s 0 "".

Definition float_two : PrimFloat.float := PrimFloat.add PrimFloat.one PrimFloat.one.
Definition float_three : PrimFloat.float := PrimFloat.add float_two PrimFloat.one.

(** The double nearest to one third, [0.3333333333333333] in Python. *)
Definition float_third : PrimFloat.float :=
  Eval vm_compute in PrimFloat.div PrimFloat.one float_three.

(** Scores 3.0 and 2.0 for [x], 1.0 and 0.5 for [y], one segment for [z]. *)
Definition value_float : NumCheckValue float_arith :=
  mkNumCheckValue "r2"
    [("x", [("segment1", float_seg float_three);
            ("segment2", float_seg float_two)]);
     ("y", [("segment1", float_seg PrimFloat.one);
            ("segment2", float_seg (PrimFloat.div PrimFloat.one float_two))]);
     ("z", [("segment1", float_seg PrimFloat.one)])].

(** The same scores and the exact value of [float_third] as rationals. *)
Definition value_float_exact : CheckValue :=
  mkCheckValue "r2"
    [("x", two_segments 3 2); ("y", two_segments 1 (1 # 2)); ("z", [("segment1", seg 1)])].

Definition exact_third : Q := 6004799503160661 # 18014398509481984.

(** * Properties *)

(** ** Numbers, strings and dictionaries *)

Lemma Qltb_lt (a b : Q) : Qltb a b = true <-> a < b.
Proof.
  unfold Qltb. rewrite negb_true_iff.
  split; intro H.
  - apply Qnot_le_lt. intro Hle. apply Qle_bool_iff in Hle. congruence.
  - destruct (Qle_bool b a) eqn:E; [|reflexivity].
    apply Qle_bool_iff in E. exfalso. exact (Qlt_not_le _ _ H E).
Qed.

Lemma Qabs_eq_zero (x : Q) : Qabs x == 0 <-> x == 0.
Proof.
  split; intro H.
  - revert H. apply Qabs_case; intros _ Hx.
    + exact Hx.
    + rewrite <- (Qopp_involutive x), Hx. reflexivity.
  - rewrite H. reflexivity.
Qed.

Lemma py_div_zero (n d : Q) : d == 0 -> py_div n (Qabs d) = Raise ZeroDivisionError.
Proof.
  intro H. unfold py_div.
  assert (E : Qeq_bool (Qabs d) 0 = true)
    by (apply Qeq_bool_iff, Qabs_eq_zero; exact H).
  rewrite E. reflexivity.
Qed.

Lemma py_div_nonzero (n d : Q) : ~ d == 0 -> py_div n (Qabs d) = Ok (n / Qabs d).
Proof.
  intro H. unfold py_div.
  destruct (Qeq_bool (Qabs d) 0) eqn:E; [|reflexivity].
  exfalso. apply H. apply Qabs_eq_zero. apply Qeq_bool_iff. exact E.
Qed.

Lemma dict_get_fresh {V} (k : string) (v : V) (pre post : dict V) :
  ~ In k (dict_keys pre) -> dict_get k (pre ++ (k, v) :: post) = Ok v.
Proof.
  induction pre as [|[k' v'] pre IH]; simpl; intro Hk.
  - rewrite String.eqb_refl. reflexivity.
  - destruct (String.eqb k k') eqn:E.
    + apply String.eqb_eq in E. exfalso. apply Hk. left. congruence.
    + apply IH. intro Hin. apply Hk. right. exact Hin.
Qed.

Lemma dict_set_fresh {V} (k : string) (v : V) (d : dict V) :
  ~ In k (dict_keys d) -> dict_set k v d = d ++ [(k, v)].
Proof.
  induction d as [|[k' v'] d IH]; simpl; intro Hk.
  - reflexivity.
  - destruct (String.eqb k k') eqn:E.
    + apply String.eqb_eq in E. exfalso. apply Hk. left. congruence.
    + rewrite IH; [reflexivity|]. intro Hin. apply Hk. right. exact Hin.
Qed.

Lemma dict_of_items_nodup {V} (l : list (string * V)) :
  NoDup (map fst l) -> dict_of_items l = l.
Proof.
  unfold dict_of_items.
  assert (G : forall (rest acc : list (string * V)),
             NoDup (map fst (acc ++ rest)) ->
             fold_left (fun d kv => dict_set (fst kv) (snd kv) d) rest acc = acc ++ rest).
  { induction rest as [|[k v] rest IH]; intros acc Hnd; simpl.
    - rewrite app_nil_r. reflexivity.
    - rewrite dict_set_fresh.
      + rewrite IH; rewrite <- app_assoc; [reflexivity | exact Hnd].
      + rewrite map_app in Hnd. simpl in Hnd.
        apply NoDup_remove_2 in Hnd. intro Hin. apply Hnd.
        apply in_or_app. left. exact Hin. }
  intro H. apply (G l []). exact H.
Qed.

(** ** [sorted] by value *)

Lemma insert_by_value_perm (x : string * string) (l : list (string * string)) :
  Permutation (insert_by_value x l) (x :: l).
Proof.
  induction l as [|y l IH]; simpl.
  - apply Permutation_refl.
  - destruct (String.ltb (snd y) (snd x)).
    + eapply perm_trans; [apply perm_skip, IH | apply perm_swap].
    + apply Permutation_refl.
Qed.

Lemma sorted_by_value_perm (l : list (string * string)) :
  Permutation (sorted_by_value l) l.
Proof.
  induction l as [|x l IH]; simpl.
  - apply perm_nil.
  - eapply perm_trans; [apply insert_by_value_perm | apply perm_skip, IH].
Qed.

Lemma sorted_by_value_keys (l : list (string * string)) :
  NoDup (dict_keys l) -> NoDup (dict_keys (sorted_by_value l)).
Proof.
  intro H. unfold dict_keys.
  eapply Permutation_NoDup; [|exact H].
  apply Permutation_map, Permutation_sym, sorted_by_value_perm.
Qed.

Lemma ltb_false_leb (a b : string) : String.ltb a b = false -> String.leb b a = true.
Proof.
  unfold String.ltb, String.leb. rewrite (String.compare_antisym a b).
  destruct (String.compare b a); simpl; congruence.
Qed.

Lemma ltb_true_leb (a b : string) : String.ltb a b = true -> String.leb a b = true.
Proof.
  unfold String.ltb, String.leb. destruct (String.compare a b); congruence.
Qed.

Lemma insert_by_value_sorted (x : string * string) (l : list (string * string)) :
  Sorted text_le l -> Sorted text_le (insert_by_value x l).
Proof.
  induction l as [|y l IH]; simpl; intro Hs.
  - repeat constructor.
  - inversion Hs as [|? ? Hl Hhd]; subst.
    destruct (String.ltb (snd y) (snd x)) eqn:E.
    + constructor; [apply IH; exact Hl|].
      destruct l as [|z l]; simpl.
      * constructor. apply ltb_true_leb. exact E.
      * destruct (String.ltb (snd z) (snd x)).
        -- constructor. inversion Hhd; assumption.
        -- constructor. apply ltb_true_leb. exact E.
    + constructor; [exact Hs|]. constructor. apply ltb_false_leb. exact E.
Qed.

Lemma sorted_by_value_sorted (l : list (string * string)) :
  Sorted text_le (sorted_by_value l).
Proof.
  induction l as [|x l IH]; simpl.
  - constructor.
  - apply insert_by_value_sorted, IH.
Qed.

(** ** The loop of the condition evaluator *)

Section ConditionFacts.

Variable format_percent : Q -> string.
Variable max_ratio_change : Q.

Lemma flagged_exceeds (entry : dict Segment) (t : string) :
  flagged format_percent max_ratio_change entry = Some t ->
  exceeds max_ratio_change entry /\
  exists s1 s2, dict_get "segment1" entry = Ok s1 /\ dict_get "segment2" entry = Ok s2 /\
                t = format_percent (relative_gap (score s1) (score s2)).
Proof.
  unfold flagged, exceeds.
  destruct (List.length entry <? 2)%nat eqn:El; [discriminate|].
  apply Nat.ltb_ge in El.
  destruct (dict_get "segment1" entry) as [s1|] eqn:E1; [|discriminate].
  destruct (dict_get "segment2" entry) as [s2|] eqn:E2; [|discriminate].
  destruct (Qltb max_ratio_change (relative_gap (score s1) (score s2))) eqn:Eg; [|discriminate].
  intro H. inversion H; subst. apply Qltb_lt in Eg.
  split; [split; [exact El|]|]; exists s1, s2; repeat split; auto.
Qed.

Lemma exceeds_flagged (entry : dict Segment) :
  exceeds max_ratio_change entry ->
  exists t, flagged format_percent max_ratio_change entry = Some t.
Proof.
  unfold flagged, exceeds. intros [Hl (s1 & s2 & E1 & E2 & Hg)].
  apply Nat.ltb_ge in Hl. rewrite Hl, E1, E2.
  apply Qltb_lt in Hg. rewrite Hg. eexists. reflexivity.
Qed.

Lemma condition_step_ok (d : dict (dict Segment)) (k : string) (entry : dict Segment)
    (fails : dict string) :
  dict_get k d = Ok entry -> well_segmented entry ->
  condition_step format_percent max_ratio_change d k fails =
  Ok (match flagged format_percent max_ratio_change entry with
      | Some t => dict_set k t fails
      | None => fails
      end).
Proof.
  intros Hget Hws. unfold condition_step, flagged. rewrite Hget. simpl.
  destruct (List.length entry <? 2)%nat eqn:El; [reflexivity|].
  destruct Hws as [Hlt | (s1 & s2 & E1 & E2 & Hnz)].
  - apply Nat.ltb_ge in El. lia.
  - unfold performance_diff. rewrite E1, E2. simpl.
    rewrite (py_div_nonzero _ _ Hnz). simpl. unfold relative_gap.
    destruct (Qltb max_ratio_change _); reflexivity.
Qed.

Lemma failing_features_keys (d : dict (dict Segment)) :
  forall k, In k (dict_keys (failing_features format_percent max_ratio_change d)) ->
            In k (dict_keys d).
Proof.
  induction d as [|[k0 e] d IH]; simpl; intros k Hk; [exact Hk|].
  unfold dict_keys in *. rewrite map_app in Hk. apply in_app_or in Hk.
  destruct Hk as [Hk|Hk].
  - destruct (flagged format_percent max_ratio_change e); simpl in Hk.
    + destruct Hk as [Hk|[]]. left. exact Hk.
    + destruct Hk.
  - right. apply IH. exact Hk.
Qed.

Lemma failing_features_nodup (d : dict (dict Segment)) :
  NoDup (dict_keys d) ->
  NoDup (dict_keys (failing_features format_percent max_ratio_change d)).
Proof.
  induction d as [|[k0 e] d IH]; simpl; intro Hnd; [constructor|].
  inversion Hnd as [|? ? Hnotin Hnd']; subst.
  destruct (flagged format_percent max_ratio_change e); simpl.
  - constructor; [|apply IH; exact Hnd'].
    intro Hin. apply Hnotin. apply failing_features_keys. exact Hin.
  - apply IH. exact Hnd'.
Qed.

Lemma condition_loop_app (d : dict (dict Segment)) (ks1 ks2 : list string)
    (fails : dict string) :
  condition_loop format_percent max_ratio_change d (ks1 ++ ks2) fails =
  do fails' <- condition_loop format_percent max_ratio_change d ks1 fails;
  condition_loop format_percent max_ratio_change d ks2 fails'.
Proof.
  revert fails. induction ks1 as [|k ks1 IH]; intro fails; simpl; [reflexivity|].
  destruct (condition_step format_percent max_ratio_change d k fails) as [f'|e]; simpl.
  - apply IH.
  - reflexivity.
Qed.

Lemma condition_loop_items (rest pre post : dict (dict Segment)) (fails : dict string) :
  NoDup (dict_keys (pre ++ rest ++ post)) ->
  Forall (fun kv => well_segmented (snd kv)) rest ->
  incl (dict_keys fails) (dict_keys pre) ->
  condition_loop format_percent max_ratio_change (pre ++ rest ++ post) (dict_keys rest) fails =
  Ok (fails ++ failing_features format_percent max_ratio_change rest).
Proof.
  revert pre fails.
  induction rest as [|[k e] rest IH]; intros pre fails Hnd Hws Hincl; simpl.
  - rewrite app_nil_r. reflexivity.
  - inversion Hws as [|? ? Hwe Hws']; subst. simpl in Hwe. cbn [app] in Hnd.
    assert (Hk : ~ In k (dict_keys pre)).
    { unfold dict_keys in *. rewrite map_app in Hnd. simpl in Hnd.
      apply NoDup_remove_2 in Hnd. intro Hin. apply Hnd, in_or_app. left. exact Hin. }
    rewrite (condition_step_ok _ k e fails (dict_get_fresh k e pre (rest ++ post) Hk) Hwe).
    simpl.
    replace (pre ++ (k, e) :: rest ++ post) with ((pre ++ [(k, e)]) ++ rest ++ post) in *
      by (rewrite <- app_assoc; reflexivity).
    rewrite IH; [| exact Hnd | exact Hws' |].
    + destruct (flagged format_percent max_ratio_change e) as [t|]; simpl.
      * rewrite dict_set_fresh; [rewrite <- app_assoc; reflexivity|].
        intro Hin. apply Hk, Hincl. exact Hin.
      * reflexivity.
    + unfold dict_keys in *. rewrite map_app. simpl.
      destruct (flagged format_percent max_ratio_change e) as [t|].
      * rewrite dict_set_fresh by (intro Hin; apply Hk, Hincl; exact Hin).
        rewrite map_app. simpl. intros x Hx. apply in_app_or in Hx.
        apply in_or_app. destruct Hx as [Hx|Hx]; [left; apply Hincl; exact Hx | right; exact Hx].
      * intros x Hx. apply in_or_app. left. apply Hincl. exact Hx.
Qed.

Lemma condition_step_zero (d : dict (dict Segment)) (k : string) (entry : dict Segment)
    (fails : dict string) (s1 s2 : Segment) :
  dict_get k d = Ok entry -> (2 <= List.length entry)%nat ->
  dict_get "segment1" entry = Ok s1 -> dict_get "segment2" entry = Ok s2 ->
  py_max (score s1) (score s2) == 0 ->
  condition_step format_percent max_ratio_change d k fails = Raise ZeroDivisionError.
Proof.
  intros Hget Hlen E1 E2 Hz. unfold condition_step. rewrite Hget. simpl.
  apply Nat.ltb_ge in Hlen. rewrite Hlen.
  unfold performance_diff. rewrite E1, E2. simpl.
  rewrite (py_div_zero _ _ Hz). reflexivity.
Qed.

(** The evaluator on a well-formed value: the report is the flagged features
    in the order [sorted] leaves them. *)
Lemma condition_well_segmented (v : CheckValue) :
  NoDup (dict_keys (feature_segments v)) ->
  Forall (fun kv => well_segmented (snd kv)) (feature_segments v) ->
  condition format_percent max_ratio_change v =
  Ok (match failing_features format_percent max_ratio_change (feature_segments v) with
      | [] => mkConditionResult PASS NoDetails
      | _ :: _ =>
          mkConditionResult WARN
            (FoundChange (scorer_name v)
               (sorted_by_value
                  (failing_features format_percent max_ratio_change (feature_segments v))))
      end).
Proof.
  intros Hnd Hws. unfold condition. cbv zeta.
  pose proof (condition_loop_items (feature_segments v) [] [] []) as E0.
  simpl in E0. rewrite app_nil_r in E0. rewrite (E0 Hnd Hws (fun x H => H)). simpl.
  destruct (failing_features format_percent max_ratio_change (feature_segments v))
    as [|x l] eqn:E; [reflexivity|].
  unfold dict_items. rewrite dict_of_items_nodup; [reflexivity|].
  apply sorted_by_value_keys. rewrite <- E. apply failing_features_nodup. exact Hnd.
Qed.

End ConditionFacts.

Lemma failing_features_in (fmt : Q -> string) (thr : Q) (d : dict (dict Segment))
    (f t : string) :
  In (f, t) (failing_features fmt thr d) <->
  exists entry, In (f, entry) d /\ flagged fmt thr entry = Some t.
Proof.
  unfold failing_features. rewrite in_flat_map. split.
  - intros [[k e] [Hin Hf]]. simpl in Hf.
    destruct (flagged fmt thr e) as [t'|] eqn:E; simpl in Hf; [|destruct Hf].
    destruct Hf as [Hf|[]]. inversion Hf; subst. exists e. split; assumption.
  - intros [e [Hin Hf]]. exists (f, e). split; [exact Hin|].
    simpl. rewrite Hf. left. reflexivity.
Qed.

Lemma sorted_by_value_nil (l : list (string * string)) :
  sorted_by_value l = [] -> l = [].
Proof.
  intro H. apply Permutation_nil. rewrite <- H. apply sorted_by_value_perm.
Qed.

(** ** The condition on the relative difference of the segments *)

Section NumConditionFacts.

Variable A : Arith.
Variable format_percent : num A -> string.
Variable max_ratio_change : num A.

Lemma num_flagged_exceeds (entry : dict (NumSegment A)) (t : string) :
  num_flagged A format_percent max_ratio_change entry = Some t ->
  num_exceeds A max_ratio_change entry /\
  exists s1 s2, dict_get "segment1" entry = Ok s1 /\ dict_get "segment2" entry = Ok s2 /\
                t = format_percent (num_relative_gap A (num_score s1) (num_score s2)).
Proof.
  unfold num_flagged, num_exceeds.
  destruct (List.length entry <? 2)%nat eqn:El; [discriminate|].
  apply Nat.ltb_ge in El.
  destruct (dict_get "segment1" entry) as [s1|] eqn:E1; [|discriminate].
  destruct (dict_get "segment2" entry) as [s2|] eqn:E2; [|discriminate].
  cbv zeta.
  destruct (num_gt A (num_relative_gap A (num_score s1) (num_score s2)) max_ratio_change)
    eqn:Eg; [|discriminate].
  intro H. inversion H; subst.
  split; [split; [exact El|]|]; exists s1, s2; repeat split; auto.
Qed.

Lemma num_exceeds_flagged (entry : dict (NumSegment A)) :
  num_exceeds A max_ratio_change entry ->
  exists t, num_flagged A format_percent max_ratio_change entry = Some t.
Proof.
  unfold num_flagged, num_exceeds. intros [Hl (s1 & s2 & E1 & E2 & Hg)].
  apply Nat.ltb_ge in Hl. rewrite Hl, E1, E2. cbv zeta. rewrite Hg.
  eexists. reflexivity.
Qed.

Lemma num_condition_step_ok (d : dict (dict (NumSegment A))) (k : string)
    (entry : dict (NumSegment A)) (fails : dict string) :
  dict_get k d = Ok entry -> num_well_segmented A entry ->
  num_condition_step A format_percent max_ratio_change d k fails =
  Ok (match num_flagged A format_percent max_ratio_change entry with
      | Some t => dict_set k t fails
      | None => fails
      end).
Proof.
  intros Hget Hws. unfold num_condition_step, num_flagged. rewrite Hget. simpl.
  destruct (List.length entry <? 2)%nat eqn:El; [reflexivity|].
  destruct Hws as [Hlt | (s1 & s2 & E1 & E2 & Hnz)].
  - apply Nat.ltb_ge in El. lia.
  - unfold num_performance_diff. rewrite E1, E2. simpl. rewrite Hnz. simpl.
    destruct (num_gt A _ max_ratio_change); reflexivity.
Qed.

Lemma num_failing_features_keys (d : dict (dict (NumSegment A))) :
  forall k, In k (dict_keys (num_failing_features A format_percent max_ratio_change d)) ->
            In k (dict_keys d).
Proof.
  induction d as [|[k0 e] d IH]; simpl; intros k Hk; [exact Hk|].
  unfold dict_keys in *. rewrite map_app in Hk. apply in_app_or in Hk.
  destruct Hk as [Hk|Hk].
  - destruct (num_flagged A format_percent max_ratio_change e); simpl in Hk.
    + destruct Hk as [Hk|[]]. left. exact Hk.
    + destruct Hk.
  - right. apply IH. exact Hk.
Qed.

Lemma num_failing_features_nodup (d : dict (dict (NumSegment A))) :
  NoDup (dict_keys d) ->
  NoDup (dict_keys (num_failing_features A format_percent max_ratio_change d)).
Proof.
  induction d as [|[k0 e] d IH]; simpl; intro Hnd; [constructor|].
  inversion Hnd as [|? ? Hnotin Hnd']; subst.
  destruct (num_flagged A format_percent max_ratio_change e); simpl.
  - constructor; [|apply IH; exact Hnd'].
    intro Hin. apply Hnotin. apply num_failing_features_keys. exact Hin.
  - apply IH. exact Hnd'.
Qed.

Lemma num_condition_loop_items (rest pre post : dict (dict (NumSegment A)))
    (fails : dict string) :
  NoDup (dict_keys (pre ++ rest ++ post)) ->
  Forall (fun kv => num_well_segmented A (snd kv)) rest ->
  incl (dict_keys fails) (dict_keys pre) ->
  num_condition_loop A format_percent max_ratio_change (pre ++ rest ++ post)
    (dict_keys rest) fails =
  Ok (fails ++ num_failing_features A format_percent max_ratio_change rest).
Proof.
  revert pre fails.
  induction rest as [|[k e] rest IH]; intros pre fails Hnd Hws Hincl; simpl.
  - rewrite app_nil_r. reflexivity.
  - inversion Hws as [|? ? Hwe Hws']; subst. simpl in Hwe. cbn [app] in Hnd.
    assert (Hk : ~ In k (dict_keys pre)).
    { unfold dict_keys in *. rewrite map_app in Hnd. simpl in Hnd.
      apply NoDup_remove_2 in Hnd. intro Hin. apply Hnd, in_or_app. left. exact Hin. }
    rewrite (num_condition_step_ok _ k e fails (dict_get_fresh k e pre (rest ++ post) Hk) Hwe).
    simpl.
    replace (pre ++ (k, e) :: rest ++ post) with ((pre ++ [(k, e)]) ++ rest ++ post) in *
      by (rewrite <- app_assoc; reflexivity).
    rewrite IH; [| exact Hnd | exact Hws' |].
    + destruct (num_flagged A format_percent max_ratio_change e) as [t|]; simpl.
      * rewrite dict_set_fresh; [rewrite <- app_assoc; reflexivity|].
        intro Hin. apply Hk, Hincl. exact Hin.
      * reflexivity.
    + unfold dict_keys in *. rewrite map_app. simpl.
      destruct (num_flagged A format_percent max_ratio_change e) as [t|].
      * rewrite dict_set_fresh by (intro Hin; apply Hk, Hincl; exact Hin).
        rewrite map_app. simpl. intros x Hx. apply in_app_or in Hx.
        apply in_or_app. destruct Hx as [Hx|Hx]; [left; apply Hincl; exact Hx | right; exact Hx].
      * intros x Hx. apply in_or_app. left. apply Hincl. exact Hx.
Qed.

Lemma num_condition_well_segmented (v : NumCheckValue A) :
  NoDup (dict_keys (num_feature_segments v)) ->
  Forall (fun kv => num_well_segmented A (snd kv)) (num_feature_segments v) ->
  num_condition A format_percent max_ratio_change v =
  Ok (match num_failing_features A format_percent max_ratio_change (num_feature_segments v) with
      | [] => mkConditionResult PASS NoDetails
      | _ :: _ =>
          mkConditionResult WARN
            (FoundChange (num_scorer_name v)
               (sorted_by_value
                  (num_failing_features A format_percent max_ratio_change
                     (num_feature_segments v))))
      end).
Proof.
  intros Hnd Hws. unfold num_condition. cbv zeta.
  pose proof (num_condition_loop_items (num_feature_segments v) [] [] []) as E0.
  simpl in E0. rewrite app_nil_r in E0. rewrite (E0 Hnd Hws (fun x H => H)). simpl.
  destruct (num_failing_features A format_percent max_ratio_change (num_feature_segments v))
    as [|x l] eqn:E; [reflexivity|].
  unfold dict_items. rewrite dict_of_items_nodup; [reflexivity|].
  apply sorted_by_value_keys. rewrite <- E. apply num_failing_features_nodup. exact Hnd.
Qed.

Lemma num_failing_features_in (d : dict (dict (NumSegment A))) (f t : string) :
  In (f, t) (num_failing_features A format_percent max_ratio_change d) <->
  exists entry, In (f, entry) d /\
                num_flagged A format_percent max_ratio_change entry = Some t.
Proof.
  unfold num_failing_features. rewrite in_flat_map. split.
  - intros [[k e] [Hin Hf]]. simpl in Hf.
    destruct (num_flagged A format_percent max_ratio_change e) as [t'|] eqn:E;
      simpl in Hf; [|destruct Hf].
    destruct Hf as [Hf|[]]. inversion Hf; subst. exists e. split; assumption.
  - intros [e [Hin Hf]]. exists (f, e). split; [exact Hin|].
    simpl. rewrite Hf. left. reflexivity.
Qed.

End NumConditionFacts.

(** The evaluator on rationals is the evaluator on the exact arithmetic. *)
Lemma dict_get_map_values {V W} (f : V -> W) (k : string) (d : dict V) :
  dict_get k (map_values f d) =
  match dict_get k d with Ok v => Ok (f v) | Raise e => Raise e end.
Proof.
  induction d as [|[k' v] d IH]; simpl; [reflexivity|].
  destruct (String.eqb k k'); [reflexivity | exact IH].
Qed.

Lemma condition_step_exact (fmt : Q -> string) (thr : Q) (d : dict (dict Segment))
    (k : string) (fails : dict string) :
  num_condition_step exact_arith fmt thr (map_values (map_values exact_segment) d) k fails =
  condition_step fmt thr d k fails.
Proof.
  unfold num_condition_step, condition_step. rewrite dict_get_map_values.
  destruct (dict_get k d) as [entry|]; simpl; [|reflexivity].
  unfold map_values at 1. rewrite length_map.
  destruct (List.length entry <? 2)%nat; [reflexivity|].
  unfold num_performance_diff, performance_diff. rewrite !dict_get_map_values.
  destruct (dict_get "segment1" entry) as [s1|]; simpl; [|reflexivity].
  destruct (dict_get "segment2" entry) as [s2|]; simpl; [|reflexivity].
  unfold py_div, num_max, py_max. simpl.
  destruct (Qeq_bool _ 0); reflexivity.
Qed.

Lemma condition_exact (fmt : Q -> string) (thr : Q) (v : CheckValue) :
  num_condition exact_arith fmt thr (exact_value v) = condition fmt thr v.
Proof.
  unfold num_condition, condition, exact_value. cbn [num_feature_segments num_scorer_name].
  cbv zeta.
  assert (Hk : dict_keys (map_values (map_values exact_segment) (feature_segments v)) =
               dict_keys (feature_segments v)).
  { unfold dict_keys, map_values. rewrite map_map. reflexivity. }
  rewrite Hk.
  assert (Hloop : forall ks fails,
            num_condition_loop exact_arith fmt thr
              (map_values (map_values exact_segment) (feature_segments v)) ks fails =
            condition_loop fmt thr (feature_segments v) ks fails).
  { induction ks as [|k ks IH]; intro fails; simpl; [reflexivity|].
    rewrite condition_step_exact.
    destruct (condition_step fmt thr (feature_segments v) k fails); simpl;
      [apply IH | reflexivity]. }
  rewrite Hloop. reflexivity.
Qed.

(** On the floats of the interpreter the verdict at a rounding boundary is
    the one of the rounded quotient: with scores 3.0 and 2.0 and the double
    nearest to one third as threshold the computed gap equals the threshold
    and [x] is not reported, while on exact rationals the gap, one third, is
    above the threshold's exact value and [x] is reported. *)
Lemma condition_rounding_boundary :
  num_condition float_arith (fun _ => "gap") float_third value_float =
    Ok (mkConditionResult WARN (FoundChange "r2" [("y", "gap")])) /\
  condition (fun _ => "gap") exact_third value_float_exact =
    Ok (mkConditionResult WARN (FoundChange "r2" [("x", "gap"); ("y", "gap")])).
Proof.
  split; vm_compute; reflexivity.
Qed.

(** ** The condition on the relative difference of the segments *)

(** C1 (amended).  In the arithmetic of the numbers the check value holds
    (the rounding of floats included), on a value mapping whose feature names
    are distinct and in which every feature with two segments has a non-zero
    divisor, the evaluator computes the gap of a feature as
    |score1 - score2| / |max(score1, score2)|, reports exactly the features
    whose computed gap compares greater than the threshold, each with its
    formatted gap, and passes exactly when no feature is reported. *)
Theorem condition_flags_by_computed_gap (A : Arith) (fmt : num A -> string) (thr : num A)
    (v : NumCheckValue A) :
  NoDup (dict_keys (num_feature_segments v)) ->
  Forall (fun kv => num_well_segmented A (snd kv)) (num_feature_segments v) ->
  exists report,
    num_condition A fmt thr v =
      Ok (match report with
          | [] => mkConditionResult PASS NoDetails
          | _ :: _ => mkConditionResult WARN (FoundChange (num_scorer_name v) report)
          end) /\
    (forall f, In f (dict_keys report) <->
               exists entry, In (f, entry) (num_feature_segments v) /\
                             num_exceeds A thr entry) /\
    (forall f t, In (f, t) report ->
       exists entry s1 s2,
         In (f, entry) (num_feature_segments v) /\
         dict_get "segment1" entry = Ok s1 /\ dict_get "segment2" entry = Ok s2 /\
         t = fmt (num_relative_gap A (num_score s1) (num_score s2))).
Proof.
  intros Hnd Hws.
  set (ff := num_failing_features A fmt thr (num_feature_segments v)).
  exists (sorted_by_value ff).
  assert (Hmem : forall x, In x (sorted_by_value ff) <-> In x ff).
  { intro x. split; apply Permutation_in;
      [apply sorted_by_value_perm | apply Permutation_sym, sorted_by_value_perm]. }
  split; [|split].
  - rewrite (num_condition_well_segmented A fmt thr v Hnd Hws). fold ff.
    destruct ff as [|x l] eqn:E; [reflexivity|].
    destruct (sorted_by_value (x :: l)) eqn:E'; [|reflexivity].
    apply sorted_by_value_nil in E'. discriminate.
  - intro f. unfold dict_keys. rewrite in_map_iff. split.
    + intros [[f' t] [Hf Hin]]. simpl in Hf. subst f'.
      apply Hmem, num_failing_features_in in Hin. destruct Hin as [e [Hin Hfl]].
      exists e. split; [exact Hin|]. apply (num_flagged_exceeds A fmt thr e t Hfl).
    + intros [e [Hin Hex]]. destruct (num_exceeds_flagged A fmt thr e Hex) as [t Hfl].
      exists (f, t). split; [reflexivity|]. apply Hmem, num_failing_features_in.
      exists e. split; assumption.
  - intros f t Hin. apply Hmem, num_failing_features_in in Hin.
    destruct Hin as [e [Hin Hfl]].
    destruct (num_flagged_exceeds A fmt thr e t Hfl) as [_ (s1 & s2 & E1 & E2 & Et)].
    exists e, s1, s2. repeat split; assumption.
Qed.

Lemma value_float_well_segmented :
  Forall (fun kv => num_well_segmented float_arith (snd kv)) (num_feature_segments value_float).
Proof.
  unfold value_float, num_feature_segments.
  apply Forall_cons; [|apply Forall_cons; [|apply Forall_cons; [|apply Forall_nil]]]; simpl.
  - right. exists (float_seg float_three), (float_seg float_two).
    split; [reflexivity|]. split; [reflexivity|]. vm_compute. reflexivity.
  - right. exists (float_seg PrimFloat.one),
                  (float_seg (PrimFloat.div PrimFloat.one float_two)).
    split; [reflexivity|]. split; [reflexivity|]. vm_compute. reflexivity.
  - left. simpl. lia.
Defined.

Lemma condition_flags_by_computed_gap_witness :
  exists report,
    num_condition float_arith (fun _ => "gap") float_third value_float =
      Ok (match report with
          | [] => mkConditionResult PASS NoDetails
          | _ :: _ => mkConditionResult WARN (FoundChange (num_scorer_name value_float) report)
          end) /\
    (forall f, In f (dict_keys report) <->
               exists entry, In (f, entry) (num_feature_segments value_float)
                             /\ num_exceeds float_arith float_third entry) /\
    (forall f t, In (f, t) report ->
       exists entry s1 s2,
         In (f, entry) (num_feature_segments value_float) /\
         dict_get "segment1" entry = Ok s1 /\ dict_get "segment2" entry = Ok s2 /\
         t = (fun _ => "gap") (num_relative_gap float_arith (num_score s1) (num_score s2))).
Proof.
  apply (condition_flags_by_computed_gap float_arith (fun _ => "gap") float_third value_float).
  - simpl. distinct_keys.
  - exact value_float_well_segmented.
Defined.

(** C1, as stated, fails: with scores -1 and -3 the gap in the words of the
    specification is 2/3, not above a threshold of 1, yet the evaluator
    computes 2 and reports the feature. *)
Lemma condition_gap_not_spec_gap :
  condition percent_text 1 value_negative =
    Ok (mkConditionResult WARN (FoundChange "neg_mse" [("x", "200%")])) /\
  spec_relative_gap (-1 # 1) (-3 # 1) == 2 # 3 /\
  relative_gap (-1 # 1) (-3 # 1) == 2 /\
  ~ 1 < spec_relative_gap (-1 # 1) (-3 # 1).
Proof.
  split; [vm_compute; reflexivity|].
  split; [vm_compute; reflexivity|].
  split; [vm_compute; reflexivity|].
  vm_compute. discriminate.
Qed.

(** C2, at the failing input: the report lists feature a (gap 1, text
    "100%") before feature b (gap 1/2, text "50%"), so it is not ascending by
    the gaps: [sorted] compared the formatted texts. *)
Theorem condition_report_order_at_input :
  condition percent_text (5 # 100) value_order =
    Ok (mkConditionResult WARN (FoundChange "accuracy" [("a", "100%"); ("b", "50%")])) /\
  relative_gap 1 0 == 1 /\
  relative_gap 1 (1 # 2) == 1 # 2 /\
  relative_gap 1 (1 # 2) < relative_gap 1 0.
Proof.
  split; [vm_compute; reflexivity|].
  split; [vm_compute; reflexivity|].
  split; vm_compute; reflexivity.
Qed.

(** The failure report of a well-formed value is in ascending order of the
    formatted texts, as [str] compares them. *)
Theorem condition_report_sorted_by_text (fmt : Q -> string) (thr : Q) (v : CheckValue)
    (shown : string) (report : dict string) :
  NoDup (dict_keys (feature_segments v)) ->
  Forall (fun kv => well_segmented (snd kv)) (feature_segments v) ->
  condition fmt thr v = Ok (mkConditionResult WARN (FoundChange shown report)) ->
  Sorted text_le report.
Proof.
  intros Hnd Hws Hrun. rewrite (condition_well_segmented fmt thr v Hnd Hws) in Hrun.
  destruct (failing_features fmt thr (feature_segments v)) as [|x l]; [discriminate|].
  injection Hrun as _ <-. apply (sorted_by_value_sorted (x :: l)).
Qed.

Lemma value_order_well_segmented :
  Forall (fun kv => well_segmented (snd kv)) (feature_segments value_order).
Proof.
  unfold value_order, feature_segments.
  apply Forall_cons; [|apply Forall_cons; [|apply Forall_nil]]; simpl.
  - right. exists (seg 1), (seg 0).
    split; [reflexivity|]. split; [reflexivity|]. vm_compute. discriminate.
  - right. exists (seg 1), (seg (1 # 2)).
    split; [reflexivity|]. split; [reflexivity|]. vm_compute. discriminate.
Defined.

Lemma condition_report_sorted_by_text_witness :
  Sorted text_le [("a", "100%"); ("b", "50%")].
Proof.
  apply (condition_report_sorted_by_text percent_text (5 # 100) value_order "accuracy").
  - simpl. distinct_keys.
  - exact value_order_well_segmented.
  - vm_compute. reflexivity.
Defined.

(** C9.  The division is unguarded: when the features before it are well
    formed, a feature with two segments whose greater score is zero makes the
    evaluator raise [ZeroDivisionError] instead of returning a result. *)
Theorem condition_division_unguarded (fmt : Q -> string) (thr : Q) (v : CheckValue)
    (pre post : dict (dict Segment)) (f : string) (entry : dict Segment) (s1 s2 : Segment) :
  feature_segments v = pre ++ (f, entry) :: post ->
  NoDup (dict_keys (feature_segments v)) ->
  Forall (fun kv => well_segmented (snd kv)) pre ->
  (2 <= List.length entry)%nat ->
  dict_get "segment1" entry = Ok s1 -> dict_get "segment2" entry = Ok s2 ->
  py_max (score s1) (score s2) == 0 ->
  condition fmt thr v = Raise ZeroDivisionError.
Proof.
  intros Hv Hnd Hpre Hlen E1 E2 Hz. unfold condition. cbv zeta.
  rewrite Hv in *. unfold dict_keys at 1. rewrite map_app. simpl map.
  rewrite condition_loop_app.
  pose proof (condition_loop_items fmt thr pre [] ((f, entry) :: post) []) as Ep.
  simpl in Ep. fold (dict_keys pre). rewrite (Ep Hnd Hpre (fun x H => H)). simpl.
  assert (Hf : ~ In f (dict_keys pre)).
  { unfold dict_keys in *. rewrite map_app in Hnd. simpl in Hnd.
    apply NoDup_remove_2 in Hnd. intro Hin. apply Hnd, in_or_app. left. exact Hin. }
  rewrite (condition_step_zero fmt thr _ f entry _ s1 s2
             (dict_get_fresh f entry pre post Hf) Hlen E1 E2 Hz).
  reflexivity.
Qed.

Lemma condition_division_unguarded_witness :
  condition percent_text (5 # 100) value_zero = Raise ZeroDivisionError.
Proof.
  apply (condition_division_unguarded percent_text (5 # 100) value_zero
           [] [] "f" (two_segments 0 (-1 # 1)) (seg 0) (seg (-1 # 1))).
  - reflexivity.
  - simpl. distinct_keys.
  - constructor.
  - simpl. lia.
  - reflexivity.
  - reflexivity.
  - vm_compute. reflexivity.
Defined.

(** ** The constructor and the alternative scorer *)

Lemma scorer_pair_hashable (p : PyVal) : is_scorer_pair p = true -> hashable p = true.
Proof.
  destruct p as [| | |xs| |]; simpl; try discriminate.
  destruct xs as [|[| s | | | |] [|[| |f| | |] [|? ?]]]; simpl; try discriminate.
  reflexivity.
Qed.

Lemma scorer_pair_truthy (ps : list PyVal) : (1 <= List.length ps)%nat -> truthy (PTuple ps) = true.
Proof.
  destruct ps; simpl; [lia | reflexivity].
Qed.

(** C8 (amended).  The constructor stores [None] when no alternative scorer is
    given and the one-entry mapping name -> callable for a single (name,
    callable) pair.  It does not count the scorers: it builds
    [dict([alternative_scorer])], so a tuple of exactly two pairs is accepted
    and stored as the mapping first pair -> second pair, and a tuple of three
    or more pairs raises [ValueError]. *)
Theorem init_alternative_scorer (mfs : nat) (mfc mems mss : Q) (n nd : nat) (rs : Z) :
  ModelErrorAnalysis_init mfs mfc mems mss PNone n nd rs =
    Ok (mkModelErrorAnalysis mfs mfc mems mss None n nd rs) /\
  (forall name f,
     ModelErrorAnalysis_init mfs mfc mems mss (scorer_pair name f) n nd rs =
       Ok (mkModelErrorAnalysis mfs mfc mems mss (Some [(PStr name, PCallable f)]) n nd rs)) /\
  (forall p q,
     is_scorer_pair p = true -> is_scorer_pair q = true ->
     ModelErrorAnalysis_init mfs mfc mems mss (PTuple [p; q]) n nd rs =
       Ok (mkModelErrorAnalysis mfs mfc mems mss (Some [(p, q)]) n nd rs)) /\
  (forall ps,
     (3 <= List.length ps)%nat ->
     exists msg,
       ModelErrorAnalysis_init mfs mfc mems mss (PTuple ps) n nd rs = Raise (ValueError msg)).
Proof.
  split; [reflexivity|]. split; [intros name f; reflexivity|]. split.
  - intros p q Hp Hq. unfold ModelErrorAnalysis_init.
    rewrite scorer_pair_truthy by (simpl; lia).
    unfold dict_of_one. simpl. rewrite (scorer_pair_hashable p Hp). reflexivity.
  - intros ps Hlen. unfold ModelErrorAnalysis_init.
    rewrite scorer_pair_truthy by lia.
    destruct ps as [|a [|b [|c ps]]]; simpl in Hlen; try lia.
    eexists. reflexivity.
Qed.

Lemma init_alternative_scorer_witness :
  exists msg,
    ModelErrorAnalysis_default
      (PTuple [scorer_pair "a" 0; scorer_pair "b" 1; scorer_pair "c" 2])
    = Raise (ValueError msg).
Proof.
  destruct (init_alternative_scorer 3 (15 # 100) (1 # 2) (5 # 100) 50000 5000 42)
    as (_ & _ & _ & H).
  apply (H [scorer_pair "a" 0; scorer_pair "b" 1; scorer_pair "c" 2]).
  simpl. lia.
Defined.

(** C8, as stated, fails: two alternative scorers are more than one, yet the
    constructor returns a check and stores the pair of pairs as one entry. *)
Lemma init_accepts_two_scorers :
  ModelErrorAnalysis_default (PTuple [scorer_pair "a" 0; scorer_pair "b" 1]) =
    Ok (mkModelErrorAnalysis 3 (15 # 100) (1 # 2) (5 # 100)
          (Some [(scorer_pair "a" 0, scorer_pair "b" 1)]) 50000 5000 42) /\
  ModelErrorAnalysis_default (PDict [(PStr "a", PCallable 0); (PStr "b", PCallable 1)]) =
    Ok (mkModelErrorAnalysis 3 (15 # 100) (1 # 2) (5 # 100)
          (Some [(PStr "a", PStr "b")]) 50000 5000 42).
Proof.
  split; reflexivity.
Qed.

(** ** The deprecated suites *)

Section SuiteFacts.

Variable Kwargs : Type.
Variable Check : Type.
Variable construct : string -> Kwargs -> Eff Check.
Variable add_condition : string -> Check -> Eff Check.

Lemma warn_then {A} (w : Warning) (m : Eff A) :
  eff_bind (warn w) (fun _ => m) = (w :: fst m, snd m).
Proof.
  unfold eff_bind, warn. destruct m as [ws r]. reflexivity.
Qed.

(** C10.  Each deprecated constructor emits one [DeprecationWarning] and then
    behaves as the suite it forwards to, with the same keyword arguments: the
    same further warnings, and the same suite returned or exception raised. *)
Theorem deprecated_suites_forward (kwargs : Kwargs) :
  single_dataset_integrity Kwargs Check construct add_condition kwargs =
    (DeprecationWarning
       "the single_dataset_integrity suite is deprecated, use the data_integrity suite instead"
       :: fst (data_integrity Kwargs Check construct add_condition kwargs),
     snd (data_integrity Kwargs Check construct add_condition kwargs)) /\
  train_test_leakage Kwargs Check construct add_condition kwargs =
    (DeprecationWarning
       "the train_test_leakage suite is deprecated, use the train_test_validation suite instead"
       :: fst (train_test_validation Kwargs Check construct add_condition kwargs),
     snd (train_test_validation Kwargs Check construct add_condition kwargs)).
Proof.
  split.
  - unfold single_dataset_integrity. apply warn_then.
  - unfold train_test_leakage. apply warn_then.
Qed.

End SuiteFacts.

(** ** The per-sample error score *)

Lemma mse_rows (rs : list Row) :
  forall preds,
    Forall (fun r => row_has_label r = true) rs ->
    List.length preds = List.length rs ->
    exists scores,
      (do y <- all_labels rs; per_sample_mse y preds) = Ok scores /\
      Forall2 (fun rp e => reg_score (fst rp) (snd rp) e) (combine rs preds) scores /\
      List.length scores = List.length rs.
Proof.
  induction rs as [|r rs IH]; intros preds Hlab Hlen.
  - destruct preds; [|discriminate]. exists []. repeat split; constructor.
  - destruct preds as [|p preds]; [discriminate|].
    inversion Hlab as [|? ? Hr Hrs]; subst.
    injection Hlen as Hlen.
    destruct (IH preds Hrs Hlen) as (scores & Hrun & Hall & Hn).
    unfold row_has_label in Hr. simpl.
    destruct (label r) as [y|] eqn:Ey; [|discriminate].
    destruct (all_labels rs) as [ys|e]; simpl in *; [|discriminate].
    rewrite Hrun. simpl.
    exists (squared_error y p :: scores). split; [reflexivity|]. split.
    + constructor; [|exact Hall]. exists y. split; [exact Ey | reflexivity].
    + simpl. rewrite Hn. reflexivity.
Qed.

Lemma cross_entropy_rows (ext : Externals) (classes_ : list Q) (rs : list Row)
    (probas : list (list Q)) :
  Forall2 (fun r probs =>
             exists y k, label r = Some y /\ index_of y classes_ = Some k /\
                         (k < List.length probs)%nat) rs probas ->
  exists scores,
    (do y <- all_labels rs;
     do encoded_label <- le_transform classes_ y;
     per_sample_cross_entropy ext encoded_label probas) = Ok scores /\
    Forall2 (fun rp e => clf_score ext classes_ (fst rp) (snd rp) e)
            (combine rs probas) scores /\
    List.length scores = List.length rs.
Proof.
  induction 1 as [|r probs rs probas (y & k & Ey & Ek & Hk) Hrest IH].
  - exists []. repeat split; constructor.
  - destruct IH as (scores & Hrun & Hall & Hn). simpl. rewrite Ey.
    destruct (all_labels rs) as [ys|e]; simpl in *; [|discriminate].
    rewrite Ek.
    destruct (le_transform classes_ ys) as [ks|e]; simpl in *; [|discriminate].
    destruct (nth_error probs k) as [p|] eqn:Ep.
    + rewrite Hrun. simpl.
      exists (neg_log ext p :: scores). split; [reflexivity|]. split.
      * constructor; [|exact Hall]. exists y, k, p. repeat split; assumption.
      * simpl. rewrite Hn. reflexivity.
    + apply nth_error_None in Ep. lia.
Qed.

Lemma mse_rows_inv (rs : list Row) :
  forall preds scores,
    (do y <- all_labels rs; per_sample_mse y preds) = Ok scores ->
    Forall2 (fun rp e => reg_score (fst rp) (snd rp) e) (combine rs preds) scores /\
    List.length scores = List.length rs.
Proof.
  induction rs as [|r rs IH]; intros preds scores Hrun; simpl in Hrun.
  - destruct preds; [|discriminate]. injection Hrun as <-. split; constructor.
  - destruct (label r) as [y|] eqn:Ey; [|discriminate].
    specialize (IH (tl preds)).
    destruct (all_labels rs) as [ys|e]; simpl in *; [|discriminate].
    destruct preds as [|p preds]; [discriminate|]. simpl in IH.
    destruct (per_sample_mse ys preds) as [rest|e]; simpl in Hrun; [|discriminate].
    injection Hrun as <-. destruct (IH rest eq_refl) as [Hall Hn].
    split; [|simpl; rewrite Hn; reflexivity].
    constructor; [|exact Hall]. exists y. split; [exact Ey | reflexivity].
Qed.

Lemma cross_entropy_rows_inv (ext : Externals) (classes_ : list Q) (rs : list Row) :
  forall probas scores,
    (do y <- all_labels rs;
     do encoded_label <- le_transform classes_ y;
     per_sample_cross_entropy ext encoded_label probas) = Ok scores ->
    Forall2 (fun rp e => clf_score ext classes_ (fst rp) (snd rp) e)
            (combine rs probas) scores /\
    List.length scores = List.length rs.
Proof.
  induction rs as [|r rs IH]; intros probas scores Hrun; simpl in Hrun.
  - destruct probas; [|discriminate]. injection Hrun as <-. split; constructor.
  - destruct (label r) as [y|] eqn:Ey; [|discriminate].
    specialize (IH (tl probas)).
    destruct (all_labels rs) as [ys|e]; simpl in *; [|discriminate].
    destruct (index_of y classes_) as [k|] eqn:Ek; [|discriminate].
    destruct (le_transform classes_ ys) as [ks|e]; simpl in *; [|discriminate].
    destruct probas as [|probs probas]; [discriminate|]. simpl in IH.
    destruct (nth_error probs k) as [p|] eqn:Ep; [|discriminate].
    destruct (per_sample_cross_entropy ext ks probas) as [rest|e]; simpl in Hrun;
      [|discriminate].
    injection Hrun as <-. destruct (IH rest eq_refl) as [Hall Hn].
    split; [|simpl; rewrite Hn; reflexivity].
    constructor; [|exact Hall]. exists y, k, p. repeat split; assumption.
Qed.

(** C4.  Whenever [scoring_func] returns the scores of a dataset, there is one
    per row: for REGRESSION the squared error between the label and the
    [model.predict] output, and otherwise minus the logarithm of the
    probability [model.predict_proba] gives to the true class, the label being
    encoded by a label encoder fitted on the classes of the (sampled) train
    dataset.  It does return them when every row has a label the encoder
    knows and the predictions have the shape of the data. *)
Theorem scoring_func_per_sample (ext : Externals) (task : ModelType) (m : Model)
    (train_dataset dataset : Dataset) :
  (forall scores,
     scoring_func ext task m train_dataset dataset = Ok scores ->
     List.length scores = List.length (rows dataset) /\
     match task with
     | REGRESSION =>
         Forall2 (fun rp e => reg_score (fst rp) (snd rp) e)
                 (combine (rows dataset) (predict m (features_columns dataset))) scores
     | _ =>
         Forall2 (fun rp e =>
                    clf_score ext (le_fit (classes train_dataset)) (fst rp) (snd rp) e)
                 (combine (rows dataset) (predict_proba m (features_columns dataset))) scores
     end) /\
  (scorable task m train_dataset dataset ->
   exists scores, scoring_func ext task m train_dataset dataset = Ok scores).
Proof.
  split.
  - intros scores Hrun. unfold scoring_func, label_col in Hrun.
    destruct (has_label dataset); [|destruct task; discriminate].
    destruct task; simpl in Hrun.
    + destruct (mse_rows_inv _ _ _ Hrun) as [Hall Hn]. split; assumption.
    + destruct (cross_entropy_rows_inv ext _ _ _ _ Hrun) as [Hall Hn]. split; assumption.
    + destruct (cross_entropy_rows_inv ext _ _ _ _ Hrun) as [Hall Hn]. split; assumption.
  - intros [Hlab Hshape]. unfold scoring_func, label_col. rewrite Hlab.
    destruct task; simpl.
    + destruct Hshape as [Hrows Hlen].
      destruct (mse_rows (rows dataset) _ Hrows Hlen) as (scores & Hrun & _).
      exists scores. exact Hrun.
    + destruct (cross_entropy_rows ext _ _ _ Hshape) as (scores & Hrun & _).
      exists scores. exact Hrun.
    + destruct (cross_entropy_rows ext _ _ _ Hshape) as (scores & Hrun & _).
      exists scores. exact Hrun.
Qed.

Lemma scoring_func_per_sample_witness :
  exists scores,
    scoring_func toy_ext BINARY toy_model (train toy_classification)
      (test toy_classification) = Ok scores /\
    List.length scores = List.length (rows (test toy_classification)) /\
    Forall2 (fun rp e =>
               clf_score toy_ext (le_fit (classes (train toy_classification)))
                 (fst rp) (snd rp) e)
            (combine (rows (test toy_classification))
               (predict_proba toy_model (features_columns (test toy_classification))))
            scores.
Proof.
  destruct (scoring_func_per_sample toy_ext BINARY toy_model
              (train toy_classification) (test toy_classification)) as [Hright Hruns].
  destruct Hruns as [scores Hscores].
  - split; [reflexivity|]. simpl.
    apply Forall2_cons.
    + exists 3, 0%nat. split; [reflexivity|]. split; [reflexivity|]. simpl. lia.
    + apply Forall2_cons; [|apply Forall2_nil].
      exists 7, 1%nat. split; [reflexivity|]. split; [reflexivity|]. simpl. lia.
  - exists scores. split; [exact Hscores|]. exact (Hright scores Hscores).
Defined.

Lemma le_transform_unseen (classes_ : list Q) (ys : list Q) (y : Q) :
  In y ys -> index_of y classes_ = None ->
  le_transform classes_ ys = Raise (ValueError "y contains previously unseen labels").
Proof.
  induction ys as [|c ys IH]; intros Hin Hnone; [destruct Hin|].
  simpl. destruct Hin as [->|Hin].
  - rewrite Hnone. reflexivity.
  - destruct (index_of c classes_); [|reflexivity].
    rewrite (IH Hin Hnone). reflexivity.
Qed.

(** In a classification task a label that is not among the classes of the
    (sampled) train dataset makes [scoring_func] raise [ValueError]: the label
    encoder cannot encode it. *)
Theorem scoring_func_unseen_label (ext : Externals) (task : ModelType) (m : Model)
    (train_dataset dataset : Dataset) (ys : list Q) (y : Q) :
  ModelType_eqb task REGRESSION = false ->
  label_col dataset = Ok ys ->
  In y ys ->
  index_of y (le_fit (classes train_dataset)) = None ->
  scoring_func ext task m train_dataset dataset =
    Raise (ValueError "y contains previously unseen labels").
Proof.
  intros Htask Hcol Hin Hnone. unfold scoring_func.
  rewrite Htask, Hcol. simpl.
  rewrite (le_transform_unseen _ ys y Hin Hnone). reflexivity.
Qed.

Lemma scoring_func_unseen_label_witness :
  scoring_func toy_ext BINARY toy_model (train toy_classification) unseen_class_test =
    Raise (ValueError "y contains previously unseen labels").
Proof.
  apply (scoring_func_unseen_label toy_ext BINARY toy_model (train toy_classification)
           unseen_class_test [3; 5] 5).
  - reflexivity.
  - reflexivity.
  - simpl. right. left. reflexivity.
  - reflexivity.
Defined.

(** ** Labels: absent altogether, or missing on some rows *)

Lemma filter_idempotent {A} (f : A -> bool) (l : list A) :
  filter f (filter f l) = filter f l.
Proof.
  induction l as [|x l IH]; simpl; [reflexivity|].
  destruct (f x) eqn:E; simpl; [rewrite E, IH|]; auto.
Qed.





Lemma sample_labelled_rows (ext : Externals) (n : nat) (seed : option Z) (g : Entropy)
    (ds : Dataset) :
  has_label ds = true ->
  sample ext n seed true g (labelled_rows ds) = sample ext n seed true g ds.
Proof.
  intro Hl. unfold sample, labelled_rows, has_label, with_rows in *. simpl.
  destruct (label_name ds); [|discriminate]. simpl.
  rewrite filter_idempotent. reflexivity.
Qed.











(** ** A run of the check *)

(** [run_logic] is the scoring stage followed by the error-contribution model
    and the display builder. *)
Lemma run_logic_stages (ext : Externals) (self : ModelErrorAnalysis) (context : Context)
    (g : Entropy) :
  run_logic ext self context g =
  do sc <- score_datasets ext self context g;
  let seed := Some (random_state self) in
  let contribution :=
    model_error_contribution ext
      (features_columns (scored_train sc)) (train_scores sc)
      (features_columns (scored_test sc)) (test_scores sc)
      (numeric_features_of (scored_train sc)) (cat_features (scored_train sc))
      (min_error_model_score self) seed g in
  let shown :=
    error_model_display ext (fst contribution) (snd contribution) (scored_test sc)
      (model context) (scored_scorer sc)
      (max_features_to_show self) (min_feature_contribution self)
      (n_display_samples self) (min_segment_size self) seed g in
  Ok (mkCheckResult (snd shown)
        match fst shown with
        | _ :: _ => Some (Html headnote :: fst shown)
        | [] => None
        end).
Proof.
  unfold run_logic, score_datasets.
  destruct (assert_label (train context)); simpl; [|reflexivity].
  destruct (get_single_scorer context (user_scorer self)) as [scorer|]; simpl; [|reflexivity].
  destruct (scoring_func ext (task_type context) (model context) _ _) as [trs|]; simpl;
    [|reflexivity].
  destruct (scoring_func ext (task_type context) (model context) _ _) as [tes|]; simpl;
    [|reflexivity].
  destruct (model_error_contribution _ _ _ _ _ _ _ _ _ _) as [fi predicted]. simpl.
  unfold error_model_display. reflexivity.
Qed.

Lemma error_model_display_empty (ext : Externals) (predicted : list Q) (ds : Dataset)
    (m : Model) (scorer : Scorer) (mfs : nat) (mfc : Q) (nd : nat) (mss : Q)
    (seed : option Z) (g : Entropy) :
  error_model_display ext [] predicted ds m scorer mfs mfc nd mss seed g =
  ([], mkCheckValue (name scorer) []).
Proof.
  unfold error_model_display, select_features. simpl. rewrite firstn_nil. reflexivity.
Qed.

(** C3.  When the held-out fit quality of the error-contribution model is
    below [min_error_model_score], a run that reached that model does not
    fail: it returns a check result whose display is [None] and whose value
    still carries the scorer name, with no feature segments. *)
Theorem run_logic_low_fit_quality (ext : Externals) (self : ModelErrorAnalysis)
    (context : Context) (g : Entropy) (sc : Scored) :
  score_datasets ext self context g = Ok sc ->
  error_model_fit_quality ext self sc g < min_error_model_score self ->
  run_logic ext self context g =
    Ok (mkCheckResult (mkCheckValue (name (scored_scorer sc)) []) None).
Proof.
  intros Hsc Hlow. rewrite run_logic_stages, Hsc.
  unfold bind. cbv beta iota zeta.
  unfold model_error_contribution. cbv zeta.
  unfold error_model_fit_quality in Hlow. cbv zeta in Hlow.
  apply Qltb_lt in Hlow. rewrite Hlow. cbn [fst snd].
  rewrite error_model_display_empty. reflexivity.
Qed.

Lemma run_logic_low_fit_quality_witness :
  run_logic toy_ext default_check (toy_context toy_test_unfit) 0%nat =
    Ok (mkCheckResult (mkCheckValue "Neg RMSE" []) None).
Proof.
  apply (run_logic_low_fit_quality toy_ext default_check (toy_context toy_test_unfit) 0%nat
           (mkScored toy_scorer
              (sample toy_ext 50000 (Some 42%Z) true 0%nat toy_train)
              (sample toy_ext 50000 (Some 42%Z) true 0%nat toy_test_unfit)
              [1; 1; 1] [4; 9])).
  - vm_compute. reflexivity.
  - vm_compute. reflexivity.
Defined.

(** The display of a returned result is [None], or the headnote followed by
    at least one display item: the headnote is never shown alone. *)
Theorem run_logic_display_headnote (ext : Externals) (self : ModelErrorAnalysis)
    (context : Context) (g : Entropy) (res : CheckResult) :
  run_logic ext self context g = Ok res ->
  display res = None \/
  exists item items, display res = Some (Html headnote :: item :: items).
Proof.
  intro Hrun. rewrite run_logic_stages in Hrun.
  destruct (score_datasets ext self context g) as [sc|e]; [|discriminate].
  unfold bind in Hrun. cbv beta iota zeta in Hrun. injection Hrun as <-.
  cbn [display].
  match goal with
  | |- context [match ?l with [] => None | _ :: _ => _ end] => destruct l as [|item items]
  end.
  - left. reflexivity.
  - right. exists item, items. reflexivity.
Qed.

Lemma run_logic_display_headnote_witness :
  exists item items, display toy_fit_result = Some (Html headnote :: item :: items).
Proof.
  destruct (run_logic_display_headnote toy_ext default_check (toy_context toy_test_fit)
              0%nat toy_fit_result) as [Hnone | Hshown].
  - vm_compute. reflexivity.
  - vm_compute in Hnone. discriminate.
  - exact Hshown.
Defined.

(** ** Determinism for a fixed [random_state] *)

Section Determinism.

Variable ext : Externals.
Hypothesis Hseeded : seeded ext.

Lemma sample_seeded (n : nat) (s : Z) (b : bool) (g1 g2 : Entropy) (ds : Dataset) :
  sample ext n (Some s) b g1 ds = sample ext n (Some s) b g2 ds.
Proof.
  destruct Hseeded as (Hs & _). unfold sample. rewrite (Hs _ s g1 g2). reflexivity.
Qed.

Lemma model_error_contribution_seeded (trx : list (list Q)) (trs : list Q)
    (tex : list (list Q)) (tes : list Q) (nf cf : list string) (q : Q) (s : Z)
    (g1 g2 : Entropy) :
  model_error_contribution ext trx trs tex tes nf cf q (Some s) g1 =
  model_error_contribution ext trx trs tex tes nf cf q (Some s) g2.
Proof.
  destruct Hseeded as (_ & Hf & Hi & _). unfold model_error_contribution.
  rewrite (Hf trx trs nf cf s g1 g2). cbv zeta.
  rewrite (Hi _ tex tes s g1 g2). reflexivity.
Qed.

Lemma feature_entry_seeded (predicted : list Q) (ds : Dataset) (m : Model)
    (scorer : Scorer) (mss : Q) (s : Z) (g1 g2 : Entropy) (feature : string) :
  feature_entry ext predicted ds m scorer mss (Some s) g1 feature =
  feature_entry ext predicted ds m scorer mss (Some s) g2 feature.
Proof.
  destruct Hseeded as (_ & _ & _ & Hp). unfold feature_entry.
  rewrite (Hp feature predicted (rows ds) mss s g1 g2). reflexivity.
Qed.

Lemma fold_left_pointwise {A B} (f1 f2 : A -> B -> A) (l : list B) :
  (forall a b, f1 a b = f2 a b) -> forall a, fold_left f1 l a = fold_left f2 l a.
Proof.
  intro H. induction l as [|b l IH]; intro a; simpl; [reflexivity|].
  rewrite H. apply IH.
Qed.

Lemma error_model_display_seeded (fi : list (string * Q)) (predicted : list Q)
    (ds : Dataset) (m : Model) (scorer : Scorer) (mfs : nat) (mfc : Q) (nd : nat)
    (mss : Q) (s : Z) (g1 g2 : Entropy) :
  error_model_display ext fi predicted ds m scorer mfs mfc nd mss (Some s) g1 =
  error_model_display ext fi predicted ds m scorer mfs mfc nd mss (Some s) g2.
Proof.
  destruct Hseeded as (Hs & _). unfold error_model_display. cbv zeta. f_equal.
  - apply map_ext. intro feature. rewrite (Hs _ s g1 g2). reflexivity.
  - f_equal. apply fold_left_pointwise. intros d feature.
    rewrite (feature_entry_seeded predicted ds m scorer mss s g1 g2). reflexivity.
Qed.

Lemma score_datasets_seeded (self : ModelErrorAnalysis) (context : Context)
    (g1 g2 : Entropy) :
  score_datasets ext self context g1 = score_datasets ext self context g2.
Proof.
  unfold score_datasets.
  rewrite (sample_seeded _ _ true g1 g2 (train context)).
  rewrite (sample_seeded _ _ true g1 g2 (test context)).
  reflexivity.
Qed.

(** C7.  When the stochastic third-party routines are functions of their seed,
    two runs on the same data, model and [random_state] agree, whatever the
    ambient generator state of each run: the importances and predictions of
    the error-contribution model are the same, and so is the check result. *)
Theorem run_logic_deterministic (self : ModelErrorAnalysis) (context : Context)
    (g1 g2 : Entropy) :
  run_logic ext self context g1 = run_logic ext self context g2 /\
  (forall trx trs tex tes nf cf,
     model_error_contribution ext trx trs tex tes nf cf
       (min_error_model_score self) (Some (random_state self)) g1 =
     model_error_contribution ext trx trs tex tes nf cf
       (min_error_model_score self) (Some (random_state self)) g2).
Proof.
  split.
  - rewrite !run_logic_stages. rewrite (score_datasets_seeded self context g1 g2).
    destruct (score_datasets ext self context g2) as [sc|e]; [|reflexivity].
    unfold bind. cbv beta iota zeta.
    rewrite (model_error_contribution_seeded _ _ _ _ _ _ _ _ g1 g2).
    rewrite (error_model_display_seeded _ _ _ _ _ _ _ _ _ _ g1 g2).
    reflexivity.
  - intros. apply model_error_contribution_seeded.
Qed.

End Determinism.

Lemma toy_ext_seeded : seeded toy_ext.
Proof.
  repeat split; intros; reflexivity.
Qed.

Lemma run_logic_deterministic_witness :
  run_logic toy_ext default_check (toy_context toy_test_fit) 0%nat =
  run_logic toy_ext default_check (toy_context toy_test_fit) 7%nat.
Proof.
  apply (run_logic_deterministic toy_ext toy_ext_seeded default_check
           (toy_context toy_test_fit) 0%nat 7%nat).
Defined.

(** Without a seed the toy routines do read the generator state. *)
Example toy_ext_unseeded_differs :
  sample_rows toy_ext 1 None 0%nat (rows toy_train) = [mkRow [30; 21; 0] (Some 1)] /\
  sample_rows toy_ext 1 None 1%nat (rows toy_train) = [mkRow [41; 25; 1] None].
Proof.
  split; reflexivity.
Qed.

(** * Further properties *)

(** ** The evaluator as a loop over the items of the mapping *)

Section EvaluatorFacts.

Variable format_percent : Q -> string.
Variable max_ratio_change : Q.

Lemma condition_step_entry (d : dict (dict Segment)) (k : string) (entry : dict Segment)
    (fails : dict string) :
  dict_get k d = Ok entry ->
  condition_step format_percent max_ratio_change d k fails =
  entry_step format_percent max_ratio_change k entry fails.
Proof.
  intro Hget. unfold condition_step, entry_step. rewrite Hget. reflexivity.
Qed.

Lemma condition_loop_as_items (rest pre post : dict (dict Segment)) (fails : dict string) :
  NoDup (dict_keys (pre ++ rest ++ post)) ->
  condition_loop format_percent max_ratio_change (pre ++ rest ++ post) (dict_keys rest) fails =
  items_loop format_percent max_ratio_change rest fails.
Proof.
  revert pre fails.
  induction rest as [|[k e] rest IH]; intros pre fails Hnd; simpl; [reflexivity|].
  cbn [app] in Hnd.
  assert (Hk : ~ In k (dict_keys pre)).
  { unfold dict_keys in *. rewrite map_app in Hnd. simpl in Hnd.
    apply NoDup_remove_2 in Hnd. intro Hin. apply Hnd, in_or_app. left. exact Hin. }
  rewrite (condition_step_entry _ k e fails (dict_get_fresh k e pre (rest ++ post) Hk)).
  destruct (entry_step format_percent max_ratio_change k e fails) as [fails'|err]; simpl;
    [|reflexivity].
  replace (pre ++ (k, e) :: rest ++ post) with ((pre ++ [(k, e)]) ++ rest ++ post) in *
    by (rewrite <- app_assoc; reflexivity).
  apply IH. exact Hnd.
Qed.

Lemma condition_as_items (v : CheckValue) :
  NoDup (dict_keys (feature_segments v)) ->
  condition format_percent max_ratio_change v =
  do fails <- items_loop format_percent max_ratio_change (feature_segments v) [];
  Ok (condition_result (scorer_name v) fails).
Proof.
  intro Hnd. unfold condition. cbv zeta.
  pose proof (condition_loop_as_items (feature_segments v) [] [] []) as E.
  simpl in E. rewrite app_nil_r in E. rewrite (E Hnd).
  destruct (items_loop format_percent max_ratio_change (feature_segments v) [])
    as [[|x l]|err]; reflexivity.
Qed.

Lemma items_loop_app (l1 l2 : dict (dict Segment)) (fails : dict string) :
  items_loop format_percent max_ratio_change (l1 ++ l2) fails =
  do fails' <- items_loop format_percent max_ratio_change l1 fails;
  items_loop format_percent max_ratio_change l2 fails'.
Proof.
  revert fails. induction l1 as [|[k e] l1 IH]; intro fails; simpl; [reflexivity|].
  destruct (entry_step format_percent max_ratio_change k e fails) as [f'|err]; simpl;
    [apply IH | reflexivity].
Qed.

Lemma entry_step_single (k : string) (entry : dict Segment) (fails : dict string) :
  (List.length entry < 2)%nat ->
  entry_step format_percent max_ratio_change k entry fails = Ok fails.
Proof.
  intro Hlen. unfold entry_step. apply Nat.ltb_lt in Hlen. rewrite Hlen. reflexivity.
Qed.

Lemma items_loop_drop_single (entries : dict (dict Segment)) (fails : dict string) :
  items_loop format_percent max_ratio_change
    (filter (fun kv => negb (List.length (snd kv) <? 2)%nat) entries) fails =
  items_loop format_percent max_ratio_change entries fails.
Proof.
  revert fails. induction entries as [|[k e] entries IH]; intro fails; simpl; [reflexivity|].
  destruct (List.length e <? 2)%nat eqn:El; simpl.
  - apply Nat.ltb_lt in El. rewrite (entry_step_single k e fails El). simpl. apply IH.
  - destruct (entry_step format_percent max_ratio_change k e fails); simpl;
      [apply IH | reflexivity].
Qed.

Lemma items_loop_well_segmented (entries : dict (dict Segment)) (fails : dict string) :
  Forall (fun kv => well_segmented (snd kv)) entries ->
  exists fails', items_loop format_percent max_ratio_change entries fails = Ok fails'.
Proof.
  revert fails. induction entries as [|[k e] entries IH]; intros fails Hws; simpl.
  - exists fails. reflexivity.
  - inversion Hws as [|? ? Hwe Hws']; subst. simpl in Hwe.
    assert (Hstep : exists f', entry_step format_percent max_ratio_change k e fails = Ok f').
    { unfold entry_step. destruct (List.length e <? 2)%nat eqn:El; [eexists; reflexivity|].
      destruct Hwe as [Hlt | (s1 & s2 & E1 & E2 & Hnz)].
      - apply Nat.ltb_ge in El. lia.
      - unfold performance_diff. rewrite E1, E2. simpl.
        rewrite (py_div_nonzero _ _ Hnz). simpl.
        destruct (Qltb max_ratio_change _); eexists; reflexivity. }
    destruct Hstep as [f' Hf']. rewrite Hf'. simpl. apply IH. exact Hws'.
Qed.

End EvaluatorFacts.

Lemma filter_keys_nodup {V} (p : string * V -> bool) (d : dict V) :
  NoDup (dict_keys d) -> NoDup (dict_keys (filter p d)).
Proof.
  induction d as [|[k v] d IH]; simpl; intro Hnd; [constructor|].
  inversion Hnd as [|? ? Hnotin Hnd']; subst.
  destruct (p (k, v)); simpl.
  - constructor; [|apply IH; exact Hnd'].
    intro Hin. apply Hnotin. unfold dict_keys in *.
    apply in_map_iff in Hin. destruct Hin as [[k' v'] [Hk Hin]]. simpl in Hk. subst k'.
    apply filter_In in Hin. apply in_map_iff. exists (k, v'). split; [reflexivity | apply Hin].
  - apply IH. exact Hnd'.
Qed.

Lemma dict_get_missing {V} (k : string) (d : dict V) :
  ~ In k (dict_keys d) -> dict_get k d = Raise (KeyError k).
Proof.
  induction d as [|[k' v] d IH]; simpl; intro Hk; [reflexivity|].
  destruct (String.eqb k k') eqn:E.
  - apply String.eqb_eq in E. exfalso. apply Hk. left. congruence.
  - apply IH. intro Hin. apply Hk. right. exact Hin.
Qed.

Lemma dict_get_present {V} (k : string) (d : dict V) :
  In k (dict_keys d) -> exists v, dict_get k d = Ok v.
Proof.
  induction d as [|[k' v] d IH]; simpl; intro Hk; [destruct Hk|].
  destruct (String.eqb k k') eqn:E; [exists v; reflexivity|].
  apply IH. destruct Hk as [Hk|Hk]; [|exact Hk].
  apply String.eqb_neq in E. congruence.
Qed.

(** ** Features with fewer than two segments *)

(** The evaluator ignores the features that have fewer than two segments: its
    outcome, a result or an exception, is the one it has on the mapping
    without these features. *)
Theorem condition_ignores_single_segments (fmt : Q -> string) (thr : Q) (v : CheckValue) :
  NoDup (dict_keys (feature_segments v)) ->
  condition fmt thr v = condition fmt thr (drop_single_segments v).
Proof.
  intro Hnd.
  rewrite (condition_as_items fmt thr v Hnd).
  rewrite (condition_as_items fmt thr (drop_single_segments v)).
  - unfold drop_single_segments. cbn [feature_segments scorer_name].
    rewrite items_loop_drop_single. reflexivity.
  - unfold drop_single_segments. cbn [feature_segments].
    apply filter_keys_nodup. exact Hnd.
Qed.

Lemma condition_ignores_single_segments_witness :
  condition percent_text (5 # 100) value_mixed =
  condition percent_text (5 # 100) (drop_single_segments value_mixed).
Proof.
  apply (condition_ignores_single_segments percent_text (5 # 100) value_mixed).
  simpl. distinct_keys.
Defined.

(** ** A feature without its segment keys *)

Lemma condition_raises_at (fmt : Q -> string) (thr : Q) (v : CheckValue)
    (pre post : dict (dict Segment)) (f : string) (entry : dict Segment) (e : PyError) :
  feature_segments v = pre ++ (f, entry) :: post ->
  NoDup (dict_keys (feature_segments v)) ->
  Forall (fun kv => well_segmented (snd kv)) pre ->
  (forall fails, entry_step fmt thr f entry fails = Raise e) ->
  condition fmt thr v = Raise e.
Proof.
  intros Hv Hnd Hpre Hstep. rewrite (condition_as_items fmt thr v Hnd), Hv.
  rewrite items_loop_app.
  destruct (items_loop_well_segmented fmt thr pre [] Hpre) as [fails' Hok].
  rewrite Hok. simpl. rewrite Hstep. reflexivity.
Qed.

(** A feature with two or more entries of which none is ['segment1'], or
    none is ['segment2'], makes the evaluator raise [KeyError] for the missing
    key (the features before it being well formed); ['segment1'] is looked up
    first. *)
Theorem condition_missing_segment_key (fmt : Q -> string) (thr : Q) (v : CheckValue)
    (pre post : dict (dict Segment)) (f : string) (entry : dict Segment) :
  feature_segments v = pre ++ (f, entry) :: post ->
  NoDup (dict_keys (feature_segments v)) ->
  Forall (fun kv => well_segmented (snd kv)) pre ->
  (2 <= List.length entry)%nat ->
  (~ In "segment1" (dict_keys entry) ->
   condition fmt thr v = Raise (KeyError "segment1")) /\
  (In "segment1" (dict_keys entry) -> ~ In "segment2" (dict_keys entry) ->
   condition fmt thr v = Raise (KeyError "segment2")).
Proof.
  intros Hv Hnd Hpre Hlen. apply Nat.ltb_ge in Hlen. split.
  - intro H1. apply (condition_raises_at fmt thr v pre post f entry _ Hv Hnd Hpre).
    intro fails. unfold entry_step, performance_diff.
    rewrite Hlen, (dict_get_missing _ _ H1). reflexivity.
  - intros H1 H2. apply (condition_raises_at fmt thr v pre post f entry _ Hv Hnd Hpre).
    intro fails. unfold entry_step, performance_diff.
    destruct (dict_get_present _ _ H1) as [s1 E1].
    rewrite Hlen, E1, (dict_get_missing _ _ H2). reflexivity.
Qed.

Lemma condition_missing_segment_key_witness :
  condition percent_text (5 # 100)
    (mkCheckValue "accuracy" [("a", two_segments 1 1);
                              ("b", [("segment1", seg 1); ("other", seg 0)])])
  = Raise (KeyError "segment2").
Proof.
  apply (condition_missing_segment_key percent_text (5 # 100)
           (mkCheckValue "accuracy" [("a", two_segments 1 1);
                                     ("b", [("segment1", seg 1); ("other", seg 0)])])
           [("a", two_segments 1 1)] [] "b" [("segment1", seg 1); ("other", seg 0)]).
  - reflexivity.
  - simpl. distinct_keys.
  - apply Forall_cons; [|apply Forall_nil]. right. exists (seg 1), (seg 1).
    split; [reflexivity|]. split; [reflexivity|]. vm_compute. discriminate.
  - simpl. lia.
  - simpl. left. reflexivity.
  - simpl. intuition discriminate.
Defined.

(** ** What the evaluator returns *)

Lemma dict_set_nonempty {V} (k : string) (v : V) (d : dict V) : dict_set k v d <> [].
Proof.
  destruct d as [|[k' v'] d]; simpl; [discriminate|].
  destruct (String.eqb k k'); discriminate.
Qed.

Lemma dict_of_items_nonempty {V} (x : string * V) (l : list (string * V)) :
  dict_of_items (x :: l) <> [].
Proof.
  unfold dict_of_items. simpl.
  assert (G : forall (rest acc : dict V),
             acc <> [] -> fold_left (fun d kv => dict_set (fst kv) (snd kv) d) rest acc <> []).
  { induction rest as [|y rest IH]; intros acc Hacc; simpl; [exact Hacc|].
    apply IH. apply dict_set_nonempty. }
  apply G. discriminate.
Qed.

(** Whatever the mapping, a result the evaluator returns is the bare PASS, or
    a WARN whose message names the scorer of the mapping and at least one
    feature; the evaluator never returns FAIL. *)
Theorem condition_pass_or_warn (fmt : Q -> string) (thr : Q) (v : CheckValue)
    (r : ConditionResult) :
  condition fmt thr v = Ok r ->
  r = mkConditionResult PASS NoDetails \/
  exists f t rest,
    r = mkConditionResult WARN (FoundChange (scorer_name v) ((f, t) :: rest)).
Proof.
  unfold condition. cbv zeta.
  destruct (condition_loop fmt thr (feature_segments v) (dict_keys (feature_segments v)) [])
    as [[|x l]|err]; simpl; intro H; [| |discriminate].
  - left. injection H as <-. reflexivity.
  - right. injection H as <-. unfold dict_items.
    destruct (insert_by_value x (sorted_by_value l)) as [|y sorted] eqn:Es.
    + apply (sorted_by_value_nil (x :: l)) in Es. discriminate.
    + destruct (dict_of_items (y :: sorted)) as [|[f t] rest] eqn:Ed.
      * exfalso. exact (dict_of_items_nonempty y sorted Ed).
      * exists f, t, rest. reflexivity.
Qed.

Lemma condition_pass_or_warn_witness :
  mkConditionResult WARN (FoundChange "accuracy" [("a", "100%"); ("b", "50%")])
    = mkConditionResult PASS NoDetails \/
  exists f t rest,
    mkConditionResult WARN (FoundChange "accuracy" [("a", "100%"); ("b", "50%")])
    = mkConditionResult WARN (FoundChange (scorer_name value_order) ((f, t) :: rest)).
Proof.
  apply (condition_pass_or_warn percent_text (5 # 100) value_order).
  vm_compute. reflexivity.
Defined.

(** The features of a report are features of the mapping, each reported at
    most once. *)
Theorem condition_report_features (fmt : Q -> string) (thr : Q) (v : CheckValue)
    (shown : string) (report : dict string) :
  NoDup (dict_keys (feature_segments v)) ->
  Forall (fun kv => well_segmented (snd kv)) (feature_segments v) ->
  condition fmt thr v = Ok (mkConditionResult WARN (FoundChange shown report)) ->
  NoDup (dict_keys report) /\
  incl (dict_keys report) (dict_keys (feature_segments v)) /\
  (List.length report <= List.length (feature_segments v))%nat.
Proof.
  intros Hnd Hws Hrun. rewrite (condition_well_segmented fmt thr v Hnd Hws) in Hrun.
  assert (Hkeys : NoDup (dict_keys (sorted_by_value
                                      (failing_features fmt thr (feature_segments v)))))
    by (apply sorted_by_value_keys, failing_features_nodup; exact Hnd).
  assert (Hincl : incl (dict_keys (sorted_by_value
                                     (failing_features fmt thr (feature_segments v))))
                       (dict_keys (feature_segments v))).
  { intros k Hk. apply (failing_features_keys fmt thr). unfold dict_keys in *.
    eapply Permutation_in; [|exact Hk].
    apply Permutation_map, sorted_by_value_perm. }
  pose proof (NoDup_incl_length Hkeys Hincl) as Hlen.
  unfold dict_keys in Hlen. rewrite !length_map in Hlen.
  destruct (failing_features fmt thr (feature_segments v)) as [|x l]; [discriminate|].
  injection Hrun as _ <-.
  split; [exact Hkeys|]. split; [exact Hincl | exact Hlen].
Qed.

Lemma condition_report_features_witness :
  NoDup (dict_keys [("a", "100%"); ("b", "50%")]) /\
  incl (dict_keys [("a", "100%"); ("b", "50%")]) (dict_keys (feature_segments value_order)) /\
  (List.length [("a", "100%"); ("b", "50%")] <= List.length (feature_segments value_order))%nat.
Proof.
  apply (condition_report_features percent_text (5 # 100) value_order "accuracy").
  - simpl. distinct_keys.
  - exact value_order_well_segmented.
  - vm_compute. reflexivity.
Defined.

(** ** The threshold *)

Lemma flagged_monotone (fmt : Q -> string) (thr thr' : Q) (entry : dict Segment) (t : string) :
  thr <= thr' -> flagged fmt thr' entry = Some t -> flagged fmt thr entry = Some t.
Proof.
  intro Hle. unfold flagged.
  destruct (List.length entry <? 2)%nat; [discriminate|].
  destruct (dict_get "segment1" entry) as [s1|]; [|discriminate].
  destruct (dict_get "segment2" entry) as [s2|]; [|discriminate].
  cbv zeta.
  destruct (Qltb thr' (relative_gap (score s1) (score s2))) eqn:E'; [|discriminate].
  apply Qltb_lt in E'.
  assert (E : Qltb thr (relative_gap (score s1) (score s2)) = true)
    by (apply Qltb_lt; eapply Qle_lt_trans; eassumption).
  rewrite E. auto.
Qed.

Lemma failing_features_monotone (fmt : Q -> string) (thr thr' : Q) (d : dict (dict Segment)) :
  thr <= thr' -> incl (failing_features fmt thr' d) (failing_features fmt thr d).
Proof.
  intros Hle [f t] Hin. apply failing_features_in in Hin. destruct Hin as [e [Hin Hfl]].
  apply failing_features_in. exists e. split; [exact Hin|].
  exact (flagged_monotone fmt thr thr' e t Hle Hfl).
Qed.

(** Raising the threshold never adds a failure: a mapping that passes at a
    threshold passes at every greater one, and whatever is reported at the
    greater threshold is reported, with the same text, at the smaller one. *)
Theorem condition_threshold_monotone (fmt : Q -> string) (thr thr' : Q) (v : CheckValue) :
  NoDup (dict_keys (feature_segments v)) ->
  Forall (fun kv => well_segmented (snd kv)) (feature_segments v) ->
  thr <= thr' ->
  (condition fmt thr v = Ok (mkConditionResult PASS NoDetails) ->
   condition fmt thr' v = Ok (mkConditionResult PASS NoDetails)) /\
  (forall shown report',
     condition fmt thr' v = Ok (mkConditionResult WARN (FoundChange shown report')) ->
     exists report,
       condition fmt thr v = Ok (mkConditionResult WARN (FoundChange shown report)) /\
       incl report' report).
Proof.
  intros Hnd Hws Hle.
  pose proof (failing_features_monotone fmt thr thr' (feature_segments v) Hle) as Hmono.
  rewrite (condition_well_segmented fmt thr v Hnd Hws).
  rewrite (condition_well_segmented fmt thr' v Hnd Hws).
  destruct (failing_features fmt thr' (feature_segments v)) as [|x' l'] eqn:E';
    destruct (failing_features fmt thr (feature_segments v)) as [|x l] eqn:E.
  - split; [reflexivity | intros shown report' H; discriminate].
  - split; [intro H; discriminate | intros shown report' H; discriminate].
  - exfalso. exact (Hmono x' (or_introl eq_refl)).
  - split; [intro H; discriminate|].
    intros shown report' H. injection H as <- <-.
    exists (sorted_by_value (x :: l)). split; [reflexivity|].
    intros y Hy. eapply Permutation_in; [apply Permutation_sym, sorted_by_value_perm|].
    apply Hmono. eapply Permutation_in; [apply sorted_by_value_perm | exact Hy].
Qed.

Lemma condition_threshold_monotone_witness :
  exists report,
    condition percent_text (5 # 100) value_order =
      Ok (mkConditionResult WARN (FoundChange "accuracy" report)) /\
    incl [("a", "100%")] report.
Proof.
  apply (condition_threshold_monotone percent_text (5 # 100) (6 # 10) value_order).
  - simpl. distinct_keys.
  - exact value_order_well_segmented.
  - vm_compute. discriminate.
  - vm_compute. reflexivity.
Defined.

(** ** The size of the relative gap *)

Lemma Qltb_false_le (a b : Q) : Qltb a b = false -> b <= a.
Proof.
  unfold Qltb. rewrite negb_false_iff. apply Qle_bool_iff.
Qed.

Lemma py_max_cases (a b : Q) :
  (a < b /\ py_max a b = b) \/ (b <= a /\ py_max a b = a).
Proof.
  unfold py_max. destruct (Qltb a b) eqn:E.
  - left. split; [apply Qltb_lt; exact E | reflexivity].
  - right. split; [apply Qltb_false_le; exact E | reflexivity].
Qed.

Lemma relative_gap_le_one (a b : Q) :
  0 <= a -> 0 <= b -> ~ py_max a b == 0 -> relative_gap a b <= 1.
Proof.
  intros Ha Hb Hnz. unfold relative_gap.
  assert (Hpos : 0 < Qabs (py_max a b)).
  { destruct (Qle_lt_or_eq _ _ (Qabs_nonneg (py_max a b))) as [H|H]; [exact H|].
    exfalso. apply Hnz. apply Qabs_eq_zero. symmetry. exact H. }
  apply Qle_shift_div_r; [exact Hpos|]. rewrite Qmult_1_l.
  destruct (py_max_cases a b) as [[Hlt ->]|[Hle ->]].
  - rewrite (Qabs_pos b Hb). apply Qabs_case; intros _; lra.
  - rewrite (Qabs_pos a Ha). apply Qabs_case; intros _; lra.
Qed.

Lemma dict_get_in {V} (k : string) (d : dict V) (x : V) :
  dict_get k d = Ok x -> In (k, x) d.
Proof.
  induction d as [|[k' v] d IH]; simpl; [discriminate|].
  destruct (String.eqb k k') eqn:E.
  - apply String.eqb_eq in E. intro H. injection H as <-. left. congruence.
  - intro H. right. apply IH. exact H.
Qed.

(** For scores that are not negative the relative gap is at most one, so
    with a threshold of one or more the evaluator passes every well-formed
    mapping of such scores. *)
Theorem condition_passes_nonnegative_scores (fmt : Q -> string) (thr : Q) (v : CheckValue) :
  NoDup (dict_keys (feature_segments v)) ->
  Forall (fun kv => well_segmented (snd kv)) (feature_segments v) ->
  nonnegative_scores v ->
  1 <= thr ->
  condition fmt thr v = Ok (mkConditionResult PASS NoDetails).
Proof.
  intros Hnd Hws Hnn Hthr. rewrite (condition_well_segmented fmt thr v Hnd Hws).
  destruct (failing_features fmt thr (feature_segments v)) as [|[f t] l] eqn:E;
    [reflexivity|].
  exfalso.
  assert (Hin : In (f, t) (failing_features fmt thr (feature_segments v)))
    by (rewrite E; left; reflexivity).
  apply failing_features_in in Hin. destruct Hin as [entry [Hin Hfl]].
  destruct (flagged_exceeds fmt thr entry t Hfl) as [[Hlen (s1 & s2 & E1 & E2 & Hgap)] _].
  unfold nonnegative_scores in Hnn. rewrite Forall_forall in Hnn, Hws.
  pose proof (Hnn _ Hin) as Hscores. pose proof (Hws _ Hin) as Hentry.
  simpl in Hscores, Hentry. rewrite Forall_forall in Hscores.
  pose proof (Hscores _ (dict_get_in _ _ _ E1)) as H1.
  pose proof (Hscores _ (dict_get_in _ _ _ E2)) as H2. simpl in H1, H2.
  destruct Hentry as [Hlt | (s1' & s2' & E1' & E2' & Hnz)]; [lia|].
  rewrite E1 in E1'. rewrite E2 in E2'. injection E1' as <-. injection E2' as <-.
  pose proof (relative_gap_le_one _ _ H1 H2 Hnz) as Hbound. lra.
Qed.

Lemma value_order_nonnegative : nonnegative_scores value_order.
Proof.
  unfold nonnegative_scores, value_order, feature_segments, two_segments.
  repeat (apply Forall_cons || apply Forall_nil); simpl; unfold Qle; simpl; lia.
Qed.

Lemma condition_passes_nonnegative_scores_witness :
  condition percent_text 1 value_order = Ok (mkConditionResult PASS NoDetails).
Proof.
  apply (condition_passes_nonnegative_scores percent_text 1 value_order).
  - simpl. distinct_keys.
  - exact value_order_well_segmented.
  - exact value_order_nonnegative.
  - unfold Qle. simpl. lia.
Defined.


(** ** What the evaluator reads *)

Lemma map_values_keys {V W} (f : V -> W) (d : dict V) :
  dict_keys (map_values f d) = dict_keys d.
Proof.
  unfold dict_keys, map_values. rewrite map_map. reflexivity.
Qed.

Lemma performance_diff_scores (f : Segment -> Segment) (entry : dict Segment) :
  (forall s, score (f s) = score s) ->
  performance_diff (map_values f entry) = performance_diff entry.
Proof.
  intro Hf. unfold performance_diff. rewrite !dict_get_map_values.
  destruct (dict_get "segment1" entry) as [s1|]; [|reflexivity].
  destruct (dict_get "segment2" entry) as [s2|]; [|reflexivity].
  simpl. rewrite !Hf. reflexivity.
Qed.

(** The evaluator reads nothing of a segment but its score: rewriting the
    other details of the segments (sizes, descriptions) leaves its outcome
    unchanged. *)
Theorem condition_reads_only_scores (fmt : Q -> string) (thr : Q)
    (f : Segment -> Segment) (v : CheckValue) :
  (forall s, score (f s) = score s) ->
  condition fmt thr (map_segments f v) = condition fmt thr v.
Proof.
  intro Hf. unfold condition, map_segments. cbv zeta. cbn [feature_segments scorer_name].
  rewrite map_values_keys.
  assert (Hloop : forall ks fails,
             condition_loop fmt thr (map_values (map_values f) (feature_segments v)) ks fails =
             condition_loop fmt thr (feature_segments v) ks fails).
  { induction ks as [|k ks IH]; intro fails; simpl; [reflexivity|].
    assert (Hstep : condition_step fmt thr
                      (map_values (map_values f) (feature_segments v)) k fails =
                    condition_step fmt thr (feature_segments v) k fails).
    { unfold condition_step. rewrite dict_get_map_values.
      destruct (dict_get k (feature_segments v)) as [entry|]; [|reflexivity]. simpl.
      unfold map_values at 1. rewrite length_map.
      rewrite (performance_diff_scores f entry Hf). reflexivity. }
    rewrite Hstep.
    destruct (condition_step fmt thr (feature_segments v) k fails); simpl;
      [apply IH | reflexivity]. }
  rewrite Hloop. reflexivity.
Qed.

Lemma condition_reads_only_scores_witness :
  condition percent_text (5 # 100)
    (map_segments (fun s => mkSegment (score s) 7 "rewritten") value_mixed)
  = condition percent_text (5 # 100) value_mixed.
Proof.
  apply (condition_reads_only_scores percent_text (5 # 100)
           (fun s => mkSegment (score s) 7 "rewritten") value_mixed).
  intro s. reflexivity.
Defined.

(** ** When the constructor succeeds *)

(** A dictionary given as [alternative_scorer] never has its scorer functions
    stored: the empty one stores [None], one entry or three and more raise
    [ValueError], and exactly two entries store the first key mapped to the
    second key. *)
Theorem init_dict_argument (mfs : nat) (mfc mems mss : Q) (n nd : nat) (rs : Z) :
  ModelErrorAnalysis_init mfs mfc mems mss (PDict []) n nd rs =
    Ok (mkModelErrorAnalysis mfs mfc mems mss None n nd rs) /\
  (forall k x,
     ModelErrorAnalysis_init mfs mfc mems mss (PDict [(k, x)]) n nd rs =
       Raise (ValueError "dictionary update sequence element #0 has length 1; 2 is required")) /\
  (forall k1 x1 k2 x2,
     hashable k1 = true ->
     ModelErrorAnalysis_init mfs mfc mems mss (PDict [(k1, x1); (k2, x2)]) n nd rs =
       Ok (mkModelErrorAnalysis mfs mfc mems mss (Some [(k1, k2)]) n nd rs)) /\
  (forall kvs,
     (3 <= List.length kvs)%nat ->
     exists msg,
       ModelErrorAnalysis_init mfs mfc mems mss (PDict kvs) n nd rs = Raise (ValueError msg)).
Proof.
  split; [reflexivity|]. split; [intros k x; reflexivity|]. split.
  - intros k1 x1 k2 x2 Hh. unfold ModelErrorAnalysis_init, dict_of_one. simpl.
    rewrite Hh. reflexivity.
  - intros kvs Hlen. unfold ModelErrorAnalysis_init, dict_of_one.
    destruct kvs as [|a [|b [|c kvs]]]; simpl in Hlen; try lia.
    simpl. eexists. reflexivity.
Qed.

Lemma init_dict_argument_witness :
  ModelErrorAnalysis_default (PDict [(PStr "auc", PCallable 0); (PStr "f1", PCallable 1)]) =
    Ok (mkModelErrorAnalysis 3 (15 # 100) (1 # 2) (5 # 100)
          (Some [(PStr "auc", PStr "f1")]) 50000 5000 42).
Proof.
  destruct (init_dict_argument 3 (15 # 100) (1 # 2) (5 # 100) 50000 5000 42)
    as (_ & _ & H & _).
  apply (H (PStr "auc") (PCallable 0) (PStr "f1") (PCallable 1)). reflexivity.
Defined.

(** ** The suites and the checks they construct *)

Section SuiteConstruction.

Variable Kwargs : Type.
Variable Check : Type.
Variable construct : string -> Kwargs -> Eff Check.
Variable add_condition : string -> Check -> Eff Check.

#[local] Set Warnings "-notation-for-abbreviation".

Local Notation configured' := (configured Kwargs Check construct add_condition).
Local Notation data_integrity' := (data_integrity Kwargs Check construct add_condition).
Local Notation train_test_validation' :=
  (train_test_validation Kwargs Check construct add_condition).
Local Notation model_evaluation' := (model_evaluation Kwargs Check construct add_condition).
Local Notation full_suite' := (full_suite Kwargs Check construct add_condition).
Local Notation from_checks' := (from_checks Kwargs Check construct add_condition).

Lemma eff_bind_ok {A B} (m : Eff A) (k : A -> Eff B) (b : B) :
  snd (eff_bind m k) = Ok b -> exists a, snd m = Ok a /\ snd (k a) = Ok b.
Proof.
  destruct m as [ws [a|e]]; simpl; [|discriminate].
  destruct (k a) as [ws' r] eqn:Ek. simpl. intro H. exists a. rewrite Ek. auto.
Qed.

Lemma eff_bind_total {A B} (m : Eff A) (k : A -> Eff B) :
  (exists a, snd m = Ok a) -> (forall a, exists b, snd (k a) = Ok b) ->
  exists b, snd (eff_bind m k) = Ok b.
Proof.
  intros [a Ha] Hk. destruct m as [ws r]. simpl in Ha. subst r. simpl.
  destruct (Hk a) as [b Hb]. destruct (k a) as [ws' r']. simpl in *. exists b. exact Hb.
Qed.

Lemma eff_bind_warnings {A B} (P : Warning -> Prop) (m : Eff A) (k : A -> Eff B) :
  Forall P (fst m) -> (forall a, Forall P (fst (k a))) -> Forall P (fst (eff_bind m k)).
Proof.
  intros Hm Hk. destruct m as [ws [a|e]]; simpl in *; [|exact Hm].
  specialize (Hk a). destruct (k a) as [ws' r]. simpl in *.
  apply Forall_app. split; assumption.
Qed.

Lemma with_conditions_ok (methods : list string) :
  forall (c0 : Eff Check) (c : Check),
    snd (fold_left (fun c m => eff_bind c (add_condition m)) methods c0) = Ok c ->
    exists c', snd c0 = Ok c'.
Proof.
  induction methods as [|m methods IH]; intros c0 c H; simpl in H.
  - exists c. exact H.
  - destruct (IH _ _ H) as [c1 H1]. destruct (eff_bind_ok _ _ _ H1) as [c' [Hc' _]].
    exists c'. exact Hc'.
Qed.

Lemma with_conditions_total (methods : list string) :
  (forall m c, exists c', snd (add_condition m c) = Ok c') ->
  forall c0 : Eff Check,
    (exists c, snd c0 = Ok c) ->
    exists c, snd (fold_left (fun c m => eff_bind c (add_condition m)) methods c0) = Ok c.
Proof.
  intro Hadd. induction methods as [|m methods IH]; intros c0 H0; simpl; [exact H0|].
  apply IH. apply eff_bind_total; [exact H0 | apply Hadd].
Qed.

Lemma with_conditions_warnings (methods : list string) :
  forall c0 : Eff Check,
    Forall from_checks' (fst c0) ->
    Forall from_checks'
      (fst (fold_left (fun c m => eff_bind c (add_condition m)) methods c0)).
Proof.
  induction methods as [|m methods IH]; intros c0 H0; simpl; [exact H0|].
  apply IH. apply eff_bind_warnings; [exact H0|].
  intro c. apply Forall_forall. intros w Hw. right. exists m, c. exact Hw.
Qed.

Lemma configured_warnings (cls : string) (methods : list string) (kwargs : Kwargs) :
  Forall from_checks' (fst (configured' cls methods kwargs)).
Proof.
  unfold configured. apply with_conditions_warnings.
  apply Forall_forall. intros w Hw. left. exists cls, kwargs. exact Hw.
Qed.

Lemma eval_args_ok (args : list (Eff Check)) :
  forall cs,
    snd (eval_args Check args) = Ok cs ->
    Forall (fun a => exists c, snd a = Ok c) args /\ List.length cs = List.length args.
Proof.
  induction args as [|a args IH]; intros cs H; simpl in H.
  - injection H as <-. split; [constructor | reflexivity].
  - destruct (eff_bind_ok _ _ _ H) as [c [Hc H']].
    destruct (eff_bind_ok _ _ _ H') as [cs' [Hcs' Hret]].
    simpl in Hret. injection Hret as <-.
    destruct (IH _ Hcs') as [Hall Hlen].
    split; [constructor; [exists c; exact Hc | exact Hall] | simpl; rewrite Hlen; reflexivity].
Qed.

Lemma eval_args_total (args : list (Eff Check)) :
  Forall (fun a => exists c, snd a = Ok c) args ->
  exists cs, snd (eval_args Check args) = Ok cs.
Proof.
  induction 1 as [|a args Ha Hargs IH]; simpl.
  - exists []. reflexivity.
  - apply eff_bind_total; [exact Ha|]. intro c.
    apply eff_bind_total; [exact IH|]. intro cs. eexists. reflexivity.
Qed.

Lemma eval_args_warnings (P : Warning -> Prop) (args : list (Eff Check)) :
  Forall (fun a => Forall P (fst a)) args -> Forall P (fst (eval_args Check args)).
Proof.
  induction 1 as [|a args Ha Hargs IH]; simpl; [constructor|].
  apply eff_bind_warnings; [exact Ha|]. intro c.
  apply eff_bind_warnings; [exact IH|]. intro cs. constructor.
Qed.

Lemma configured_ok (cls : string) (methods : list string) (kwargs : Kwargs) :
  (exists c, snd (configured' cls methods kwargs) = Ok c) ->
  exists c, snd (construct cls kwargs) = Ok c.
Proof.
  intros [c H]. exact (with_conditions_ok methods _ c H).
Qed.

Lemma configured_total (cls : string) (methods : list string) (kwargs : Kwargs) :
  (forall cls, exists c, snd (construct cls kwargs) = Ok c) ->
  (forall m c, exists c', snd (add_condition m c) = Ok c') ->
  exists c, snd (configured' cls methods kwargs) = Ok c.
Proof.
  intros Hc Hadd. unfold configured. apply with_conditions_total; [exact Hadd | apply Hc].
Qed.

Ltac each_argument tac :=
  repeat (apply Forall_cons; [tac|]); apply Forall_nil.

Ltac classes_of H :=
  repeat match type of H with
         | Forall _ (_ :: _) =>
             let Ha := fresh "Ha" in
             let H' := fresh "H" in
             apply Forall_cons_iff in H; destruct H as [Ha H'];
             apply configured_ok in Ha; apply Forall_cons; [exact Ha|]; rename H' into H
         end; apply Forall_nil.

(** A suite that is returned has the name and the number of checks of its
    source (11, 12 and 12), and every one of its check classes accepted the
    keyword arguments: arguments that one class rejects fail the whole
    suite. *)
Theorem suites_construct_every_check (kwargs : Kwargs) :
  (forall s, snd (data_integrity Kwargs Check construct add_condition kwargs) = Ok s ->
     suite_name s = "Data Integrity Suite" /\ List.length (checks s) = 11%nat /\
     Forall (fun cls => exists c, snd (construct cls kwargs) = Ok c) data_integrity_classes) /\
  (forall s, snd (train_test_validation Kwargs Check construct add_condition kwargs) = Ok s ->
     suite_name s = "Train Test Validation Suite" /\ List.length (checks s) = 12%nat /\
     Forall (fun cls => exists c, snd (construct cls kwargs) = Ok c)
            train_test_validation_classes) /\
  (forall s, snd (model_evaluation Kwargs Check construct add_condition kwargs) = Ok s ->
     suite_name s = "Model Evaluation Suite" /\ List.length (checks s) = 12%nat /\
     Forall (fun cls => exists c, snd (construct cls kwargs) = Ok c) model_evaluation_classes).
Proof.
  split; [|split]; intros s H.
  - unfold data_integrity in H. destruct (eff_bind_ok _ _ _ H) as [cs [Hcs Hret]].
    simpl in Hret. injection Hret as <-. destruct (eval_args_ok _ _ Hcs) as [Hall Hlen].
    split; [reflexivity|]. split; [exact Hlen|].
    unfold data_integrity_classes. classes_of Hall.
  - unfold train_test_validation in H. destruct (eff_bind_ok _ _ _ H) as [cs [Hcs Hret]].
    simpl in Hret. injection Hret as <-. destruct (eval_args_ok _ _ Hcs) as [Hall Hlen].
    split; [reflexivity|]. split; [exact Hlen|].
    unfold train_test_validation_classes. classes_of Hall.
  - unfold model_evaluation in H. destruct (eff_bind_ok _ _ _ H) as [cs [Hcs Hret]].
    simpl in Hret. injection Hret as <-. destruct (eval_args_ok _ _ Hcs) as [Hall Hlen].
    split; [reflexivity|]. split; [exact Hlen|].
    unfold model_evaluation_classes. classes_of Hall.
Qed.

(** When every check class accepts the keyword arguments and every condition
    method returns, each of the four suite constructors returns a suite. *)
Theorem suites_are_returned (kwargs : Kwargs) :
  (forall cls, exists c, snd (construct cls kwargs) = Ok c) ->
  (forall m c, exists c', snd (add_condition m c) = Ok c') ->
  (exists s, snd (data_integrity Kwargs Check construct add_condition kwargs) = Ok s) /\
  (exists s, snd (train_test_validation Kwargs Check construct add_condition kwargs) = Ok s) /\
  (exists s, snd (model_evaluation Kwargs Check construct add_condition kwargs) = Ok s) /\
  (exists s, snd (full_suite Kwargs Check construct add_condition kwargs) = Ok s).
Proof.
  intros Hc Hadd.
  assert (Hdi : exists s, snd (data_integrity' kwargs) = Ok s).
  { unfold data_integrity. apply eff_bind_total; [|intro cs; eexists; reflexivity].
    apply eval_args_total. each_argument ltac:(apply configured_total; assumption). }
  assert (Httv : exists s, snd (train_test_validation' kwargs) = Ok s).
  { unfold train_test_validation. apply eff_bind_total; [|intro cs; eexists; reflexivity].
    apply eval_args_total. each_argument ltac:(apply configured_total; assumption). }
  assert (Hme : exists s, snd (model_evaluation' kwargs) = Ok s).
  { unfold model_evaluation. apply eff_bind_total; [|intro cs; eexists; reflexivity].
    apply eval_args_total. each_argument ltac:(apply configured_total; assumption). }
  repeat split; try assumption.
  unfold full_suite. apply eff_bind_total; [exact Hme|]. intro s1.
  apply eff_bind_total; [exact Httv|]. intro s2.
  apply eff_bind_total; [exact Hdi|]. intro s3. eexists. reflexivity.
Qed.

(** The four suite constructors emit no warning of their own: every warning
    they emit was emitted by a check constructor or by a condition method. *)
Theorem suites_warnings_from_checks (kwargs : Kwargs) :
  Forall (from_checks Kwargs Check construct add_condition)
         (fst (data_integrity Kwargs Check construct add_condition kwargs)) /\
  Forall (from_checks Kwargs Check construct add_condition)
         (fst (train_test_validation Kwargs Check construct add_condition kwargs)) /\
  Forall (from_checks Kwargs Check construct add_condition)
         (fst (model_evaluation Kwargs Check construct add_condition kwargs)) /\
  Forall (from_checks Kwargs Check construct add_condition)
         (fst (full_suite Kwargs Check construct add_condition kwargs)).
Proof.
  assert (Hdi : Forall from_checks' (fst (data_integrity' kwargs))).
  { unfold data_integrity. apply eff_bind_warnings; [|intro cs; constructor].
    apply eval_args_warnings. each_argument ltac:(apply configured_warnings). }
  assert (Httv : Forall from_checks' (fst (train_test_validation' kwargs))).
  { unfold train_test_validation. apply eff_bind_warnings; [|intro cs; constructor].
    apply eval_args_warnings. each_argument ltac:(apply configured_warnings). }
  assert (Hme : Forall from_checks' (fst (model_evaluation' kwargs))).
  { unfold model_evaluation. apply eff_bind_warnings; [|intro cs; constructor].
    apply eval_args_warnings. each_argument ltac:(apply configured_warnings). }
  repeat split; try assumption.
  unfold full_suite. apply eff_bind_warnings; [exact Hme|]. intro s1.
  apply eff_bind_warnings; [exact Httv|]. intro s2.
  apply eff_bind_warnings; [exact Hdi|]. intro s3. constructor.
Qed.

End SuiteConstruction.

Lemma suites_are_returned_witness :
  exists s,
    snd (full_suite (list string) TraceCheck (trace_construct []) trace_add_condition
           ["n_samples"]) = Ok s.
Proof.
  apply (suites_are_returned (list string) TraceCheck (trace_construct [])
           trace_add_condition ["n_samples"]).
  - intro cls. eexists. reflexivity.
  - intros m c. eexists. reflexivity.
Defined.

Lemma suites_construct_every_check_witness :
  Forall (fun cls => exists c, snd (trace_construct [] cls ["n_samples"]) = Ok c)
         data_integrity_classes.
Proof.
  destruct (suites_construct_every_check (list string) TraceCheck (trace_construct [])
              trace_add_condition ["n_samples"]) as (H & _ & _).
  destruct (snd (data_integrity (list string) TraceCheck (trace_construct [])
                   trace_add_condition ["n_samples"])) as [s|e] eqn:Hs.
  - destruct (H s eq_refl) as (_ & _ & Hall). exact Hall.
  - vm_compute in Hs. discriminate.
Defined.

(** A suite fails as soon as one of its classes rejects the keyword
    arguments: here the third class of the data integrity suite does. *)
Example data_integrity_rejected :
  data_integrity (list string) TraceCheck (trace_construct ["MixedNulls"])
    trace_add_condition ["n_samples"]
  = ([], Raise (TypeError "__init__() got an unexpected keyword argument")).
Proof.
  vm_compute. reflexivity.
Qed.

(** ** Errors of a run *)

(** In a classification task, when the train dataset has been scored and the
    sampled test dataset holds a label that is not among the classes of the
    sampled train dataset, the run raises [ValueError] instead of returning a
    result. *)
Theorem run_logic_unseen_test_label (ext : Externals) (self : ModelErrorAnalysis)
    (context : Context) (g : Entropy) (scorer : Scorer) (scores ys : list Q) (y : Q) :
  has_label (train context) = true ->
  get_single_scorer context (user_scorer self) = Ok scorer ->
  ModelType_eqb (task_type context) REGRESSION = false ->
  scoring_func ext (task_type context) (model context)
    (sample ext (n_samples self) (Some (random_state self)) true g (train context))
    (sample ext (n_samples self) (Some (random_state self)) true g (train context))
    = Ok scores ->
  label_col (sample ext (n_samples self) (Some (random_state self)) true g (test context))
    = Ok ys ->
  In y ys ->
  index_of y
    (le_fit (classes
       (sample ext (n_samples self) (Some (random_state self)) true g (train context))))
    = None ->
  run_logic ext self context g = Raise (ValueError "y contains previously unseen labels").
Proof.
  intros Hl Hs Htask Htrain Hcol Hin Hnone.
  unfold run_logic, assert_label. rewrite Hl. simpl. rewrite Hs. simpl.
  rewrite Htrain. simpl.
  unfold scoring_func. rewrite Htask, Hcol. simpl.
  rewrite (le_transform_unseen _ ys y Hin Hnone). reflexivity.
Qed.

Lemma run_logic_unseen_test_label_witness :
  run_logic toy_ext default_check
    (mkContext (train toy_classification) unseen_class_test toy_model BINARY
       (fun _ => Ok toy_scorer)) 0%nat
  = Raise (ValueError "y contains previously unseen labels").
Proof.
  apply (run_logic_unseen_test_label toy_ext default_check
           (mkContext (train toy_classification) unseen_class_test toy_model BINARY
              (fun _ => Ok toy_scorer)) 0%nat toy_scorer [1 # 2; 1 # 2] [3; 5] 5).
  - reflexivity.
  - reflexivity.
  - reflexivity.
  - vm_compute. reflexivity.
  - vm_compute. reflexivity.
  - simpl. right. left. reflexivity.
  - vm_compute. reflexivity.
Defined.
